(** * DVD LPCM decoder (gst/dvdlpcmdec/gstdvdlpcmdec.c)

    A shallow embedding of the decoder element: the header parser
    [parse_header], the timestamp bookkeeping [update_timestamps], the
    converter [gst_dvdlpcmdec_chain_raw], the DVD framer
    [gst_dvdlpcmdec_chain_dvd], the caps of the sink pad
    [gst_dvdlpcmdec_setcaps] and the state change
    [gst_dvdlpcmdec_change_state].

    C integers are integers of [Z] with the conversions of the C source
    written out ([u8], [u32], [u64]); buffers are lists of bytes indexed
    from 0; an access outside a buffer, a division by zero and the use of
    a NULL buffer are a crash ([None]).  The pads of the element belong to
    the surrounding pipeline: what they answer is a parameter
    ([Pipeline]), and what the element asks of them is recorded in a
    trace of [Event]s. *)

From Stdlib Require Import ZArith List Lia Bool.

From stdpp Require Import base option list strings gmap.

Import ListNotations.

Local Open Scope Z_scope.

(** ** Machine integers *)

(** Conversion to guchar / guint8, guint / guint32 and guint64. *)
Definition u8 (z : Z) : Z := z mod 2 ^ 8.

Definition u32 (z : Z) : Z := z mod 2 ^ 32.

Definition u64 (z : Z) : Z := z mod 2 ^ 64.

(** Conversion to gint. *)
Definition s32 (z : Z) : Z := (z + 2 ^ 31) mod 2 ^ 32 - 2 ^ 31.

(** Division of a guint by a gint: the divisor is converted to guint.
    Dividing by zero crashes. *)
Definition udiv (a b : Z) : option Z :=
  if u32 b =? 0 then None else Some (a / u32 b).

(** Division of signed operands truncates towards zero. *)
Definition sdiv (a b : Z) : option Z :=
  if b =? 0 then None else Some (Z.quot a b).

(** ** Time *)

(** GST_SECOND, in nanoseconds, and GST_CLOCK_TIME_NONE, (guint64) -1. *)
Definition GST_SECOND : Z := 1000000000.

Definition GST_CLOCK_TIME_NONE : Z := 2 ^ 64 - 1.

Definition GST_CLOCK_TIME_IS_VALID (t : Z) : bool :=
  negb (t =? GST_CLOCK_TIME_NONE).

(** ** Caps, buffers and flow results *)

(** The fields of the audio/x-raw-int caps the element builds for its
    source pad ("endianness" is always big endian and "signed" always
    true; "depth" and "width" both get out_width). *)
Record GstCaps := mkCaps {
  caps_rate : Z;
  caps_channels : Z;
  caps_depth : Z;
  caps_width : Z
}.

Record GstBuffer := mkBuffer {
  buf_data : list Z;
  buf_timestamp : Z;
  buf_duration : Z;
  buf_caps : option GstCaps
}.

(** GST_BUFFER_SIZE *)
Definition buf_size (b : GstBuffer) : Z := Z.of_nat (length (buf_data b)).

Definition GST_BUFFER_TIMESTAMP_IS_VALID (b : GstBuffer) : bool :=
  GST_CLOCK_TIME_IS_VALID (buf_timestamp b).

Definition set_timestamp (t : Z) (b : GstBuffer) : GstBuffer :=
  mkBuffer (buf_data b) t (buf_duration b) (buf_caps b).

Definition set_duration (d : Z) (b : GstBuffer) : GstBuffer :=
  mkBuffer (buf_data b) (buf_timestamp b) d (buf_caps b).

Definition set_data (l : list Z) (b : GstBuffer) : GstBuffer :=
  mkBuffer l (buf_timestamp b) (buf_duration b) (buf_caps b).

Definition gst_buffer_set_caps (b : GstBuffer) (c : option GstCaps) : GstBuffer :=
  mkBuffer (buf_data b) (buf_timestamp b) (buf_duration b) c.

Inductive GstFlowReturn :=
| GST_FLOW_OK
| GST_FLOW_NOT_LINKED
| GST_FLOW_NOT_NEGOTIATED
| GST_FLOW_ERROR
| GST_FLOW_OTHER (code : Z).

Definition flow_is_ok (r : GstFlowReturn) : bool :=
  match r with GST_FLOW_OK => true | _ => false end.

(** ** The element *)

(** Modelled from the spec: the struct is declared in gstdvdlpcmdec.h,
    which is not among the sources.  Its fields are those the source
    assigns and reads, the Format State of section 3 of the
    specification: rate, channels, width, out_width and dynamic_range are
    the ints gst_structure_get_int fills, emphasis and mute the booleans,
    header the last header word seen and timestamp the cursor, a
    GstClockTime.  [srcpad_caps] stands for GST_PAD_CAPS (srcpad). *)
Record GstDvdLpcmDec := mkDec {
  rate : Z;
  channels : Z;
  width : Z;
  out_width : Z;
  dynamic_range : Z;
  emphasis : bool;
  mute : bool;
  timestamp : Z;
  header : Z;
  srcpad_caps : option GstCaps
}.

(** gst_dvdlpcm_reset *)
Definition gst_dvdlpcm_reset : GstDvdLpcmDec :=
  {| rate := 0; channels := 0; width := 0; out_width := 0;
     dynamic_range := 0; emphasis := false; mute := false;
     timestamp := 0; header := 0; srcpad_caps := None |}.

(** parse_header: the switch on [header & 0xC000] picks the two widths. *)
Definition parse_header (dec : GstDvdLpcmDec) (hdr : Z) : GstDvdLpcmDec :=
  let sel := Z.land hdr 0xC000 in
  let w :=
    if sel =? 0x8000 then (24, 24)
    else if sel =? 0x4000 then (20, 24)
    else (16, 16) in
  {| dynamic_range := Z.land hdr 0xff;
     mute := negb (Z.land hdr 0x400000 =? 0);
     emphasis := negb (Z.land hdr 0x800000 =? 0);
     width := fst w;
     out_width := snd w;
     rate := if negb (Z.land hdr 0x1000 =? 0) then 96000 else 48000;
     channels := Z.land (Z.shiftr hdr 8) 0x7 + 1;
     timestamp := timestamp dec;
     header := header dec;
     srcpad_caps := srcpad_caps dec |}.

(** The bit-depth selector the layout table speaks of: bits [15:14]. *)
Definition depth_selector (h : Z) : Z := Z.land (Z.shiftr h 14) 3.

Definition selected_width (h : Z) : Z :=
  if depth_selector h =? 2 then 24
  else if depth_selector h =? 1 then 20
  else 16.

(** ** Memory *)

(** A buffer's bytes are a list; a pointer into it is an offset.  Reading
    or writing outside the buffer crashes. *)
Definition load (mem : list Z) (p : nat) : option Z := mem !! p.

Definition store (mem : list Z) (p : nat) (v : Z) : option (list Z) :=
  if decide (p < length mem)%nat then Some (<[p := v]> mem) else None.

(** memcpy (mem + p, vs, length vs) *)
Fixpoint memcpy (mem : list Z) (p : nat) (vs : list Z) : option (list Z) :=
  match vs with
  | [] => Some mem
  | v :: vs' => mem' ← store mem p v; memcpy mem' (S p) vs'
  end.

(** ** The 20-bit path: the body of the loop and the loop

    [src] and [dest] are the two pointers of the C loop, offsets into the
    input [data] and into the allocated output [out]. *)

Definition expand20_group (data : list Z) (src : nat) (out : list Z) (dest : nat)
  : option (list Z) :=
  s ← load data (src + 0); out ← store out (dest + 0) s;
  s ← load data (src + 1); out ← store out (dest + 1) s;
  s ← load data (src + 8); out ← store out (dest + 2) (u8 (Z.land s 0xf0));
  s ← load data (src + 2); out ← store out (dest + 3) s;
  s ← load data (src + 3); out ← store out (dest + 4) s;
  s ← load data (src + 8); out ← store out (dest + 5) (u8 (Z.shiftl (Z.land s 0x0f) 4));
  s ← load data (src + 4); out ← store out (dest + 6) s;
  s ← load data (src + 5); out ← store out (dest + 7) s;
  s ← load data (src + 9); out ← store out (dest + 8) (u8 (Z.land s 0x0f));
  s ← load data (src + 6); out ← store out (dest + 9) s;
  s ← load data (src + 7); out ← store out (dest + 10) s;
  s ← load data (src + 9); store out (dest + 11) (u8 (Z.shiftl (Z.land s 0x0f) 4)).

Fixpoint expand20_loop (count : nat) (data : list Z) (src : nat)
    (out : list Z) (dest : nat) : option (list Z) :=
  match count with
  | O => Some out
  | S n =>
      out' ← expand20_group data src out dest;
      expand20_loop n data (src + 10) out' (dest + 12)
  end.

(** ** The 24-bit path: the body of the loop and the loop, in place *)

Definition reorder24_group (mem : list Z) (src : nat) : option (list Z) :=
  t0 ← load mem (src + 8);
  t1 ← load mem (src + 2);
  t2 ← load mem (src + 3);
  t3 ← load mem (src + 9);
  t4 ← load mem (src + 4);
  t5 ← load mem (src + 5);
  t6 ← load mem (src + 10);
  t7 ← load mem (src + 6);
  t8 ← load mem (src + 7);
  memcpy mem (src + 2) [t0; t1; t2; t3; t4; t5; t6; t7; t8].

Fixpoint reorder24_loop (count : nat) (mem : list Z) (src : nat) : option (list Z) :=
  match count with
  | O => Some mem
  | S n => mem' ← reorder24_group mem src; reorder24_loop n mem' (src + 12)
  end.

(** ** The mappings as the specification words them

    The 20-bit mapping of one 10-byte group to one 12-byte group, group
    after group; bytes after the last whole group yield nothing. *)

Fixpoint expand20_spec (l : list Z) : list Z :=
  match l with
  | s0 :: s1 :: s2 :: s3 :: s4 :: s5 :: s6 :: s7 :: s8 :: s9 :: rest =>
      [s0; s1; Z.land s8 0xF0;
       s2; s3; Z.shiftl (Z.land s8 0x0F) 4;
       s4; s5; Z.land s9 0x0F;
       s6; s7; Z.shiftl (Z.land s9 0x0F) 4] ++ expand20_spec rest
  | _ => []
  end.

(** The 24-bit mapping applied to an untouched copy: bytes 0, 1 and 11 of
    each 12-byte group stay, bytes 2..10 become [src8, src2, src3, src9,
    src4, src5, src10, src6, src7]; bytes after the last whole group
    stay. *)
Fixpoint reorder24_spec (l : list Z) : list Z :=
  match l with
  | s0 :: s1 :: s2 :: s3 :: s4 :: s5 :: s6 :: s7 :: s8 :: s9 :: s10 :: s11 :: rest =>
      [s0; s1; s8; s2; s3; s9; s4; s5; s10; s6; s7; s11] ++ reorder24_spec rest
  | _ => l
  end.

(** ** The pipeline around the element *)

(** The three GST_ELEMENT_ERRORs the converter posts. *)
Inductive ElementError :=
| STREAM_FORMAT       (* "Buffer pushed before negotiation" *)
| RESOURCE_FAILED     (* "Buffer allocation failed" *)
| STREAM_WRONG_TYPE.  (* "Invalid sample width configured" *)

(** What the element does to its surroundings, in the order it does it. *)
Inductive Event :=
| EvSetCaps (caps : GstCaps)          (* gst_pad_set_caps (srcpad, caps) *)
| EvSetCapsNull                       (* gst_pad_set_caps (srcpad, NULL) *)
| EvChainRaw (buf : GstBuffer)        (* gst_dvdlpcmdec_chain_raw (pad, buf) *)
| EvAllocBuffer (size : Z)            (* gst_pad_alloc_buffer (srcpad, 0, size, ..) *)
| EvPush (buf : GstBuffer)            (* gst_pad_push (srcpad, buf) *)
| EvElementError (e : ElementError).  (* GST_ELEMENT_ERROR *)

(** What the source pad answers; an answer may depend on everything that
    happened before.  [pad_alloc_fill] is the content of a freshly
    allocated buffer, which the element does not choose. *)
Record Pipeline := mkPipeline {
  pad_set_caps : list Event -> GstCaps -> bool;
  pad_is_usable : list Event -> bool;
  pad_alloc_buffer : list Event -> Z -> GstFlowReturn;
  pad_alloc_fill : nat -> Z;
  pad_push : list Event -> GstBuffer -> GstFlowReturn
}.

Record World := mkWorld {
  dec : GstDvdLpcmDec;
  trace : list Event
}.

(** ** The monad of the element's code: state, trace and crash

    A computation yields a value, or crashes ([None]); either way it
    leaves the world as it was at that point. *)

Definition M (A : Type) : Type := World -> option A * World.

Definition ret {A} (a : A) : M A := fun w => (Some a, w).

Definition bind {A B} (m : M A) (k : A -> M B) : M B :=
  fun w => match m w with
           | (Some a, w') => k a w'
           | (None, w') => (None, w')
           end.

Definition lift {A} (o : option A) : M A := fun w => (o, w).

Definition get_dec : M GstDvdLpcmDec := fun w => (Some (dec w), w).

Definition put_dec (d : GstDvdLpcmDec) : M unit :=
  fun w => (Some tt, mkWorld d (trace w)).

Definition emit (e : Event) : M unit :=
  fun w => (Some tt, mkWorld (dec w) (trace w ++ [e])).

Definition get_trace : M (list Event) := fun w => (Some (trace w), w).

Declare Scope lpcm_scope.

Delimit Scope lpcm_scope with lpcm.

Notation "x <~ m ;; k" := (bind m (fun x => k))
  (at level 100, m at next level, right associativity) : lpcm_scope.

Notation "m ;;; k" := (bind m (fun _ => k))
  (at level 100, right associativity) : lpcm_scope.

Local Open Scope lpcm_scope.

(** ** GStreamer calls *)

Definition set_srcpad_caps (c : option GstCaps) (d : GstDvdLpcmDec) : GstDvdLpcmDec :=
  mkDec (rate d) (channels d) (width d) (out_width d) (dynamic_range d)
        (emphasis d) (mute d) (timestamp d) (header d) c.

Definition set_cursor (t : Z) (d : GstDvdLpcmDec) : GstDvdLpcmDec :=
  mkDec (rate d) (channels d) (width d) (out_width d) (dynamic_range d)
        (emphasis d) (mute d) t (header d) (srcpad_caps d).

Definition set_header (h : Z) (d : GstDvdLpcmDec) : GstDvdLpcmDec :=
  mkDec (rate d) (channels d) (width d) (out_width d) (dynamic_range d)
        (emphasis d) (mute d) (timestamp d) h (srcpad_caps d).

(** gst_pad_set_caps (srcpad, caps): when the pad accepts, the caps become
    GST_PAD_CAPS (srcpad). *)
Definition gst_pad_set_caps (P : Pipeline) (caps : GstCaps) : M bool :=
  t <~ get_trace;;
  emit (EvSetCaps caps);;;
  if pad_set_caps P t caps then
    d <~ get_dec;;
    put_dec (set_srcpad_caps (Some caps) d);;;
    ret true
  else ret false.

Definition GST_PAD_IS_USABLE (P : Pipeline) : M bool :=
  t <~ get_trace;; ret (pad_is_usable P t).

(** gst_pad_alloc_buffer (srcpad, 0, size, caps, &outbuf) *)
Definition gst_pad_alloc_buffer (P : Pipeline) (size : Z) (caps : option GstCaps)
  : M (GstFlowReturn * GstBuffer) :=
  t <~ get_trace;;
  emit (EvAllocBuffer size);;;
  ret (pad_alloc_buffer P t size,
       mkBuffer (map (pad_alloc_fill P) (seq 0 (Z.to_nat size)))
                GST_CLOCK_TIME_NONE GST_CLOCK_TIME_NONE caps).

Definition gst_pad_push (P : Pipeline) (buf : GstBuffer) : M GstFlowReturn :=
  t <~ get_trace;;
  emit (EvPush buf);;;
  ret (pad_push P t buf).

Definition GST_ELEMENT_ERROR (e : ElementError) : M unit :=
  emit (EvElementError e).

(** gst_buffer_stamp (dest, src) copies the timestamp and the duration. *)
Definition gst_buffer_stamp (dest src : GstBuffer) : GstBuffer :=
  mkBuffer (buf_data dest) (buf_timestamp src) (buf_duration src) (buf_caps dest).

(** gst_buffer_create_sub (buf, offset, size): the [size] bytes of [buf]
    from [offset] on, without timestamp (the offset is never 0 here),
    duration or caps; NULL when the range does not lie within [buf]. *)
Definition gst_buffer_create_sub (buf : GstBuffer) (offset size : Z)
  : option GstBuffer :=
  if offset + size <=? buf_size buf then
    Some (mkBuffer (take (Z.to_nat size) (drop (Z.to_nat offset) (buf_data buf)))
                   GST_CLOCK_TIME_NONE GST_CLOCK_TIME_NONE None)
  else None.

(** ** update_timestamps

    [samples] is an int and GST_SECOND a gint64: the product fits 64 bits,
    and the quotient is converted to the guint64 GstClockTime. *)

Definition update_timestamps (d : GstDvdLpcmDec) (buf : GstBuffer) (samples : Z)
  : option (GstDvdLpcmDec * GstBuffer) :=
  q ← sdiv (samples * GST_SECOND) (rate d);
  let buf := set_duration (u64 q) buf in
  if GST_BUFFER_TIMESTAMP_IS_VALID buf then
    Some (set_cursor (buf_timestamp buf) d, buf)
  else
    let t := u64 (timestamp d + buf_duration buf) in
    Some (set_cursor t d, set_timestamp t buf).

(** ** gst_dvdlpcmdec_chain_raw *)

(** The common end of the three paths: caps, timestamps, push.
    [samples] is the guint of the function, passed as an int. *)
Definition push_converted (P : Pipeline) (buf : GstBuffer) (samples : Z)
  : M GstFlowReturn :=
  d <~ get_dec;;
  let buf := gst_buffer_set_caps buf (srcpad_caps d) in
  r <~ lift (update_timestamps d buf (s32 samples));;
  put_dec (fst r);;;
  gst_pad_push P (snd r).

Definition gst_dvdlpcmdec_chain_raw (P : Pipeline) (buf : GstBuffer)
  : M GstFlowReturn :=
  emit (EvChainRaw buf);;;
  d <~ get_dec;;
  let size := buf_size buf in
  let data := buf_data buf in
  if rate d =? 0 then
    (* not_negotiated *)
    GST_ELEMENT_ERROR STREAM_FORMAT;;;
    ret GST_FLOW_NOT_NEGOTIATED
  else
  usable <~ GST_PAD_IS_USABLE P;;
  if negb usable then
    (* disabled *)
    ret GST_FLOW_NOT_LINKED
  else
  if width d =? 16 then
    q <~ lift (udiv size (channels d));;
    let samples := q / 2 in
    push_converted P buf samples
  else if width d =? 20 then
    (* the block declares its own gint64 samples; size * 8 is a guint *)
    let samples20 := u32 (size * 8) / 20 in
    let count := size / 10 in
    a <~ gst_pad_alloc_buffer P (samples20 * 3) (srcpad_caps d);;
    if negb (flow_is_ok (fst a)) then
      (* buffer_alloc_failed *)
      GST_ELEMENT_ERROR RESOURCE_FAILED;;;
      ret (fst a)
    else
    let outbuf := gst_buffer_stamp (snd a) buf in
    _ <~ lift (sdiv samples20 (channels d));;
    out <~ lift (expand20_loop (Z.to_nat count) data 0 (buf_data outbuf) 0);;
    (* the samples of the function, not of the block, is still 0 *)
    push_converted P (set_data out outbuf) 0
  else if width d =? 24 then
    let count := size / 12 in
    q <~ lift (udiv size (channels d));;
    let samples := q / 3 in
    mem <~ lift (reorder24_loop (Z.to_nat count) data 0);;
    push_converted P (set_data mem buf) samples
  else
    (* invalid_width *)
    GST_ELEMENT_ERROR STREAM_WRONG_TYPE;;;
    ret GST_FLOW_NOT_NEGOTIATED.

(** ** gst_dvdlpcmdec_chain_dvd *)

(** The two fields of the 5-byte header. *)
Definition first_access_of (d0 d1 : Z) : Z := Z.lor (Z.shiftl d0 8) d1.

Definition header_of (d2 d3 d4 : Z) : Z :=
  Z.lor (Z.lor (Z.shiftl d2 16) (Z.shiftl d3 8)) d4.

(** The caps built from what was just parsed. *)
Definition src_caps_of (d : GstDvdLpcmDec) : GstCaps :=
  mkCaps (rate d) (channels d) (out_width d) (out_width d).

(** "see if we have a new header"; the result is false at
    negotiation_failed. *)
Definition negotiate_header (P : Pipeline) (hdr : Z) : M bool :=
  d <~ get_dec;;
  if negb (hdr =? header d) then
    let d1 := parse_header d hdr in
    put_dec d1;;;
    ok <~ gst_pad_set_caps P (src_caps_of d1);;
    if ok then
      d2 <~ get_dec;;
      put_dec (set_header hdr d2);;;
      ret true
    else ret false
  else ret true.

(** A sub-buffer is used right after it is created: NULL crashes. *)
Definition chain_sub (P : Pipeline) (buf : GstBuffer) (off len : Z) (ts : Z)
  : M GstFlowReturn :=
  subbuf <~ lift (gst_buffer_create_sub buf (u32 off) (u32 len));;
  gst_dvdlpcmdec_chain_raw P (set_timestamp ts subbuf).

(** The part after the header: "skip access unit bytes and info". *)
Definition forward_sub_buffers (P : Pipeline) (buf : GstBuffer) (first_access : Z)
  : M GstFlowReturn :=
  let size := buf_size buf in
  let off := 5 in
  if first_access >? 4 then
    (* length of first blength before access unit *)
    let len := s32 (first_access - 4) in
    (* see if we need a subbuffer without timestamp *)
    first <~ (if len >? 0
              then chain_sub P buf off len GST_CLOCK_TIME_NONE
              else ret GST_FLOW_OK);;
    if negb (flow_is_ok first) then ret first
    else
      (* then the buffer with new timestamp *)
      let off := s32 (off + len) in
      let len := s32 (u32 (size - off)) in
      chain_sub P buf off len (buf_timestamp buf)
  else
    (* We don't have a valid timestamp at all *)
    chain_sub P buf off (s32 (u32 (size - off))) GST_CLOCK_TIME_NONE.

Definition gst_dvdlpcmdec_chain_dvd (P : Pipeline) (buf : GstBuffer)
  : M GstFlowReturn :=
  let data := buf_data buf in
  d0 <~ lift (load data 0);;
  d1 <~ lift (load data 1);;
  d2 <~ lift (load data 2);;
  d3 <~ lift (load data 3);;
  d4 <~ lift (load data 4);;
  let first_access := first_access_of d0 d1 in
  let hdr := header_of d2 d3 d4 in
  negotiated <~ negotiate_header P hdr;;
  if negb negotiated then
    (* negotiation_failed *)
    ret GST_FLOW_ERROR
  else
    forward_sub_buffers P buf first_access.

(** ** Reading a trace *)

(** The buffers handed to the converter, the buffers pushed downstream,
    the caps proposed to the source pad and the errors posted, in order. *)
Definition chain_raw_calls (t : list Event) : list GstBuffer :=
  omap (fun e => match e with EvChainRaw b => Some b | _ => None end) t.

Definition pushed (t : list Event) : list GstBuffer :=
  omap (fun e => match e with EvPush b => Some b | _ => None end) t.

Definition set_caps_calls (t : list Event) : list GstCaps :=
  omap (fun e => match e with EvSetCaps c => Some c | _ => None end) t.

Definition element_errors (t : list Event) : list ElementError :=
  omap (fun e => match e with EvElementError x => Some x | _ => None end) t.

(** The stream format held by the element: what parse_header writes. *)
Definition format_of (d : GstDvdLpcmDec) : Z * Z * Z * Z * Z * bool * bool :=
  (rate d, channels d, width d, out_width d, dynamic_range d, emphasis d, mute d).

(** What happened between two worlds. *)
Definition new_events (w w' : World) : list Event :=
  drop (length (trace w)) (trace w').

(** The world in which the converter starts on [buf]. *)
Definition entered (buf : GstBuffer) (w : World) : World :=
  mkWorld (dec w) (trace w ++ [EvChainRaw buf]).

(** A payload of [size] bytes is a whole number of sample frames of
    [channels] samples of [width] bits. *)
Definition whole_frames (d : GstDvdLpcmDec) (size : Z) : Prop :=
  (size * 8) mod (channels d * width d) = 0.

(** A buffer as GStreamer holds it: bytes, and a size that fits a guint. *)
Definition buffer_wf (b : GstBuffer) : Prop :=
  Forall (fun x => 0 <= x < 256) (buf_data b) /\ buf_size b < 2 ^ 32.

(** ** Pipelines and streams used as examples *)

(** A source pad that accepts everything. *)
Definition accepting : Pipeline :=
  mkPipeline (fun _ _ => true) (fun _ => true) (fun _ _ => GST_FLOW_OK)
             (fun _ => 0) (fun _ _ => GST_FLOW_OK).

(** A source pad that refuses every caps. *)
Definition refusing : Pipeline :=
  mkPipeline (fun _ _ => false) (fun _ => true) (fun _ _ => GST_FLOW_OK)
             (fun _ => 0) (fun _ _ => GST_FLOW_OK).

(** A source pad that is not linked. *)
Definition unlinked : Pipeline :=
  mkPipeline (fun _ _ => true) (fun _ => false) (fun _ _ => GST_FLOW_OK)
             (fun _ => 0) (fun _ _ => GST_FLOW_OK).

(** The element after READY_TO_PAUSED. *)
Definition fresh_world : World := mkWorld gst_dvdlpcm_reset [].

(** The element once the header word [hdr] has been negotiated. *)
Definition configured (hdr : Z) : World :=
  let d := parse_header gst_dvdlpcm_reset hdr in
  mkWorld (set_header hdr (set_srcpad_caps (Some (src_caps_of d)) d)) [].

Definition chunk (bytes : list Z) (ts : Z) : GstBuffer :=
  mkBuffer bytes ts GST_CLOCK_TIME_NONE None.

(** A chunk of a 24-bit, one-channel, 48000 Hz stream (header word
    0x008001) whose access unit starts 3 bytes into the payload, and the
    one whose access unit starts with the payload. *)
Definition payload15 : list Z :=
  [0xA1; 0xA2; 0xA3;
   0xB0; 0xB1; 0xB2; 0xB3; 0xB4; 0xB5; 0xB6; 0xB7; 0xB8; 0xB9; 0xBA; 0xBB].

Definition chunk_fa7 : GstBuffer := chunk ([0; 7; 0x00; 0x80; 0x01] ++ payload15) 1000.

Definition chunk_fa4 : GstBuffer := chunk ([0; 4; 0x00; 0x80; 0x01] ++ payload15) 1000.

(** A 20-bit, one-channel, 48000 Hz stream (header word 0x004001) and
    two payloads for it: the 10-byte group of the specification's
    example, and 536870920 bytes, a multiple of 10 for which [size * 8]
    no longer fits a guint. *)
Definition lpcm20 : World := configured 0x004001.

Definition example_group : list Z :=
  [0x11; 0x22; 0x33; 0x44; 0x55; 0x66; 0x77; 0x88; 0xA5; 0x5A].

Definition large_input : GstBuffer :=
  chunk (replicate (Z.to_nat 536870920) 0) GST_CLOCK_TIME_NONE.

(** A 24-bit and a 16-bit stream of two channels at 48000 Hz, a 12-byte
    group for the first and three bytes for the second. *)
Definition lpcm24 : World := configured 0x008101.

Definition lpcm16 : World := configured 0x000101.

Definition group24 : GstBuffer :=
  chunk [0xC0; 0xC1; 0xC2; 0xC3; 0xC4; 0xC5; 0xC6; 0xC7; 0xC8; 0xC9; 0xCA; 0xCB] 1000.

Definition three_bytes : GstBuffer := chunk [0xD0; 0xD1; 0xD2] 1000.

(** ** The caps on the sink pad

    The caps handed to a setcaps function are fixed: their first
    structure is a name and a set of typed fields. *)

Inductive GValue :=
| G_INT (i : Z)          (* G_TYPE_INT, a gint *)
| G_BOOLEAN (b : bool)   (* G_TYPE_BOOLEAN *)
| G_OTHER.               (* a value of any other type *)

Record GstStructure := mkStructure {
  structure_name : string;
  structure_fields : gmap string GValue
}.

Definition gst_structure_has_name (s : GstStructure) (name : string) : bool :=
  bool_decide (structure_name s = name).

(** gst_structure_get_int (structure, fieldname, &value): FALSE, and
    nothing written, when the field is missing or holds no int. *)
Definition gst_structure_get_int (s : GstStructure) (fieldname : string)
  : option Z :=
  match structure_fields s !! fieldname with
  | Some (G_INT i) => Some i
  | _ => None
  end.

Definition gst_structure_get_boolean (s : GstStructure) (fieldname : string)
  : option bool :=
  match structure_fields s !! fieldname with
  | Some (G_BOOLEAN b) => Some b
  | _ => None
  end.

(** ** gst_dvdlpcmdec_setcaps *)

Definition set_rate (v : Z) (d : GstDvdLpcmDec) : GstDvdLpcmDec :=
  mkDec v (channels d) (width d) (out_width d) (dynamic_range d)
        (emphasis d) (mute d) (timestamp d) (header d) (srcpad_caps d).

Definition set_channels (v : Z) (d : GstDvdLpcmDec) : GstDvdLpcmDec :=
  mkDec (rate d) v (width d) (out_width d) (dynamic_range d)
        (emphasis d) (mute d) (timestamp d) (header d) (srcpad_caps d).

Definition set_width (v : Z) (d : GstDvdLpcmDec) : GstDvdLpcmDec :=
  mkDec (rate d) (channels d) v (out_width d) (dynamic_range d)
        (emphasis d) (mute d) (timestamp d) (header d) (srcpad_caps d).

Definition set_out_width (v : Z) (d : GstDvdLpcmDec) : GstDvdLpcmDec :=
  mkDec (rate d) (channels d) (width d) v (dynamic_range d)
        (emphasis d) (mute d) (timestamp d) (header d) (srcpad_caps d).

Definition set_dynamic_range (v : Z) (d : GstDvdLpcmDec) : GstDvdLpcmDec :=
  mkDec (rate d) (channels d) (width d) (out_width d) v
        (emphasis d) (mute d) (timestamp d) (header d) (srcpad_caps d).

Definition set_emphasis (v : bool) (d : GstDvdLpcmDec) : GstDvdLpcmDec :=
  mkDec (rate d) (channels d) (width d) (out_width d) (dynamic_range d)
        v (mute d) (timestamp d) (header d) (srcpad_caps d).

Definition set_mute (v : bool) (d : GstDvdLpcmDec) : GstDvdLpcmDec :=
  mkDec (rate d) (channels d) (width d) (out_width d) (dynamic_range d)
        (emphasis d) v (timestamp d) (header d) (srcpad_caps d).

(** [res &= gst_structure_get_.. (structure, name, &dvdlpcmdec->field)]:
    the field of the element is written when the getter finds a value,
    and the answer of the getter is what is and-ed into [res]. *)
Definition get_into {A} (v : option A) (set : A -> GstDvdLpcmDec -> GstDvdLpcmDec)
  : M bool :=
  match v with
  | Some a => d <~ get_dec;; put_dec (set a d);;; ret true
  | None => ret false
  end.

(** The function from [res &= gst_structure_get_int (structure, "rate", ..)]
    on: all six getters run, whatever the earlier ones answered. *)
Definition setcaps_raw (P : Pipeline) (structure : GstStructure) : M bool :=
  r1 <~ get_into (gst_structure_get_int structure "rate") set_rate;;
  r2 <~ get_into (gst_structure_get_int structure "channels") set_channels;;
  r3 <~ get_into (gst_structure_get_int structure "width") set_width;;
  r4 <~ get_into (gst_structure_get_int structure "dynamic_range") set_dynamic_range;;
  r5 <~ get_into (gst_structure_get_boolean structure "emphasis") set_emphasis;;
  r6 <~ get_into (gst_structure_get_boolean structure "mute") set_mute;;
  let res := true && r1 && r2 && r3 && r4 && r5 && r6 in
  if negb res then
    (* caps_parse_error *)
    ret false
  else
    d <~ get_dec;;
    (* Output width is the input width rounded up to the nearest byte *)
    let d := set_out_width (if width d =? 20 then 24 else width d) d in
    put_dec d;;;
    gst_pad_set_caps P (src_caps_of d).

(** The two chain functions the sink pad can be given. *)
Inductive ChainFunction :=
| CHAIN_DVD    (* gst_dvdlpcmdec_chain_dvd *)
| CHAIN_RAW.   (* gst_dvdlpcmdec_chain_raw *)

(** The element with its sink pad: the chain function installed on it,
    none before the first caps. *)
Record Element := mkElement {
  world : World;
  sink_chain : option ChainFunction
}.

Definition gst_pad_set_chain_function (f : ChainFunction) (e : Element) : Element :=
  mkElement (world e) (Some f).

(** gst_dvdlpcm_reset as the element runs it: the fields are written,
    then gst_pad_set_caps (srcpad, NULL) takes the caps off the source
    pad. *)
Definition gst_dvdlpcm_reset_call : M unit :=
  put_dec gst_dvdlpcm_reset;;;
  emit EvSetCapsNull.

(** gst_dvdlpcmdec_init: the pads are created, on an instance whose
    fields are still zero, and the element is reset. *)
Definition gst_dvdlpcmdec_init : Element :=
  mkElement (snd (gst_dvdlpcm_reset_call (mkWorld gst_dvdlpcm_reset []))) None.

(** gst_dvdlpcmdec_setcaps (pad, caps); [None] is caps == NULL. *)
Definition gst_dvdlpcmdec_setcaps (P : Pipeline) (caps : option GstStructure)
    (e : Element) : option bool * Element :=
  match caps with
  | None => (Some false, e)
  | Some structure =>
      (* If we have the DVD structured LPCM (including header) *)
      if gst_structure_has_name structure "audio/x-private1-lpcm" then
        (Some true, gst_pad_set_chain_function CHAIN_DVD e)
      else
        let e := gst_pad_set_chain_function CHAIN_RAW e in
        let r := setcaps_raw P structure (world e) in
        (fst r, mkElement (snd r) (sink_chain e))
  end.

(** ** The pad templates *)

Definition int_field_in (s : GstStructure) (fieldname : string) (ok : Z -> bool)
  : bool :=
  match gst_structure_get_int s fieldname with
  | Some v => ok v
  | None => false
  end.

Definition boolean_field (s : GstStructure) (fieldname : string) : bool :=
  match gst_structure_get_boolean s fieldname with
  | Some _ => true
  | None => false
  end.

(** The second structure of gst_dvdlpcmdec_sink_template, audio/x-lpcm. *)
Definition sink_template_lpcm (s : GstStructure) : bool :=
  gst_structure_has_name s "audio/x-lpcm"
  && int_field_in s "width" (fun v => (v =? 16) || (v =? 20) || (v =? 24))
  && int_field_in s "rate" (fun v => (v =? 48000) || (v =? 96000))
  && int_field_in s "channels" (fun v => (1 <=? v) && (v <=? 8))
  && int_field_in s "dynamic_range" (fun v => (0 <=? v) && (v <=? 255))
  && boolean_field s "emphasis"
  && boolean_field s "mute".

(** gst_dvdlpcmdec_src_template; the endianness and the signedness are
    not fields of [GstCaps]. *)
Definition src_template (c : GstCaps) : bool :=
  ((caps_width c =? 16) || (caps_width c =? 24))
  && ((caps_rate c =? 48000) || (caps_rate c =? 96000))
  && ((1 <=? caps_channels c) && (caps_channels c <=? 8))
  && ((caps_depth c =? 16) || (caps_depth c =? 24)).

(** ** gst_dvdlpcmdec_change_state *)

Inductive GstStateTransition :=
| GST_STATE_NULL_TO_READY
| GST_STATE_READY_TO_PAUSED
| GST_STATE_PAUSED_TO_PLAYING
| GST_STATE_PLAYING_TO_PAUSED
| GST_STATE_PAUSED_TO_READY
| GST_STATE_READY_TO_NULL.

Inductive GstElementStateReturn :=
| GST_STATE_FAILURE
| GST_STATE_SUCCESS
| GST_STATE_ASYNC.

(** parent_class->change_state: its answer, and what it leaves as the caps
    of the source pad; the fields of the element are out of its reach. *)
Definition ParentChangeState : Type :=
  GstStateTransition -> option GstCaps -> GstElementStateReturn * option GstCaps.

Definition gst_dvdlpcmdec_change_state (parent : ParentChangeState)
    (transition : GstStateTransition) (e : Element)
  : GstElementStateReturn * Element :=
  let w :=
    match transition with
    | GST_STATE_READY_TO_PAUSED => snd (gst_dvdlpcm_reset_call (world e))
    | _ => world e
    end in
  let res := parent transition (srcpad_caps (dec w)) in
  (fst res,
   mkElement (mkWorld (set_srcpad_caps (snd res) (dec w)) (trace w)) (sink_chain e)).

(** ** Streams

    The chunks of a DVD stream handed to the framer one after the other,
    up to a crash. *)
Fixpoint chain_dvd_all (P : Pipeline) (bufs : list GstBuffer) : M unit :=
  match bufs with
  | [] => ret tt
  | buf :: rest => gst_dvdlpcmdec_chain_dvd P buf;;; chain_dvd_all P rest
  end.

(** update_timestamps on a run of buffers without timestamp that hold
    the given numbers of samples: the element after the last one. *)
Fixpoint update_timestamps_all (d : GstDvdLpcmDec) (samples : list Z)
  : option GstDvdLpcmDec :=
  match samples with
  | [] => Some d
  | n :: rest =>
      r ← update_timestamps d (mkBuffer [] GST_CLOCK_TIME_NONE GST_CLOCK_TIME_NONE None) n;
      update_timestamps_all (fst r) rest
  end.

(** The format is unset, as gst_dvdlpcm_reset leaves it, or one that
    parse_header can produce. *)
Definition format_parsed (d : GstDvdLpcmDec) : Prop :=
  (rate d = 48000 \/ rate d = 96000) /\
  1 <= channels d <= 8 /\
  ((width d = 16 /\ out_width d = 16) \/
   (width d = 20 /\ out_width d = 24) \/
   (width d = 24 /\ out_width d = 24)) /\
  0 <= dynamic_range d <= 255.

Definition format_unset (d : GstDvdLpcmDec) : Prop :=
  format_of d = format_of gst_dvdlpcm_reset.

Definition format_valid (d : GstDvdLpcmDec) : Prop :=
  format_unset d \/ format_parsed d.

(** Events among which no caps are proposed and no "Invalid sample width
    configured" is posted. *)
Definition converter_events (evs : list Event) : Prop :=
  set_caps_calls evs = [] /\ ~ In STREAM_WRONG_TYPE (element_errors evs).


(** ** Caps and streams used as examples *)

(** Caps of a 16-bit, two-channel, 48000 Hz stream without header. *)
Definition lpcm_caps : GstStructure :=
  mkStructure "audio/x-lpcm"
    (<["width" := G_INT 16]>
     (<["rate" := G_INT 48000]>
      (<["channels" := G_INT 2]>
       (<["dynamic_range" := G_INT 0]>
        (<["emphasis" := G_BOOLEAN false]>
         (<["mute" := G_BOOLEAN false]> ∅)))))).

(** The same caps without the channels. *)
Definition lpcm_caps_short : GstStructure :=
  mkStructure "audio/x-lpcm"
    (<["width" := G_INT 16]> (<["rate" := G_INT 96000]> ∅)).

(** Eight bytes: two frames of two 16-bit channels. *)
Definition two_frames : GstBuffer :=
  chunk [0xE0; 0xE1; 0xE2; 0xE3; 0xE4; 0xE5; 0xE6; 0xE7] 5000.

(** A chunk of a 16-bit, two-channel, 48000 Hz stream (header word
    0x000101) whose access unit starts 4 bytes into the payload. *)
Definition chunk16 : GstBuffer :=
  chunk ([0; 8; 0x00; 0x01; 0x01] ++ [0xF0; 0xF1; 0xF2; 0xF3; 0xF4; 0xF5; 0xF6; 0xF7])
        7000.

(** * Proofs *)

(** ** Bit-level facts used by the header parser *)

Lemma land_pow2_testbit (h : Z) (k : Z) :
  0 <= k -> negb (Z.land h (2 ^ k) =? 0) = Z.testbit h k.
Proof.
  intros Hk.
  assert (E : Z.land h (2 ^ k) = if Z.testbit h k then 2 ^ k else 0).
  { apply Z.bits_inj'. intros n Hn.
    rewrite Z.land_spec.
    destruct (Z.eq_dec n k) as [->|Hne].
    - rewrite Z.pow2_bits_true by lia.
      destruct (Z.testbit h k); simpl.
      + now rewrite Z.pow2_bits_true by lia.
      + now rewrite Z.bits_0.
    - rewrite Z.pow2_bits_false by lia. rewrite andb_false_r.
      destruct (Z.testbit h k).
      + now rewrite Z.pow2_bits_false by lia.
      + now rewrite Z.bits_0. }
  rewrite E. destruct (Z.testbit h k); simpl.
  - assert (0 < 2 ^ k) by (apply Z.pow_pos_nonneg; lia).
    destruct (Z.eqb_spec (2 ^ k) 0); [lia | reflexivity].
  - reflexivity.
Qed.

Lemma land_C000_selector (h : Z) :
  Z.land h 0xC000 = Z.shiftl (Z.land (Z.shiftr h 14) 3) 14.
Proof.
  apply Z.bits_inj'. intros n Hn.
  rewrite Z.land_spec.
  destruct (Z_lt_ge_dec n 14) as [Hlt|Hge].
  - rewrite Z.shiftl_spec_low by lia.
    change 0xC000 with (Z.shiftl 3 14).
    rewrite (Z.shiftl_spec_low 3 14 n) by lia. apply andb_false_r.
  - rewrite Z.shiftl_spec by lia.
    rewrite Z.land_spec, Z.shiftr_spec by lia.
    replace (n - 14 + 14) with n by lia.
    f_equal.
    destruct (Z.eq_dec n 14) as [->|]; [reflexivity|].
    destruct (Z.eq_dec n 15) as [->|]; [reflexivity|].
    replace 0xC000 with (Z.shiftl 3 14) by reflexivity.
    rewrite Z.shiftl_spec by lia.
    reflexivity.
Qed.

Lemma land_3_cases (x : Z) :
  Z.land x 3 = 0 \/ Z.land x 3 = 1 \/ Z.land x 3 = 2 \/ Z.land x 3 = 3.
Proof.
  change (Z.land x 3) with (Z.land x (Z.ones 2)).
  rewrite Z.land_ones by lia. change (2 ^ 2) with 4.
  pose proof (Z.mod_pos_bound x 4 ltac:(lia)). lia.
Qed.

Lemma parse_header_width (dec : GstDvdLpcmDec) (h : Z) :
  width (parse_header dec h) = selected_width h.
Proof.
  unfold parse_header, selected_width, depth_selector; simpl.
  rewrite land_C000_selector.
  destruct (land_3_cases (Z.shiftr h 14)) as [E|[E|[E|E]]]; rewrite E; reflexivity.
Qed.

(** C1.  For every 24-bit header word, [parse_header] yields
    dynamic_range = h & 0xFF, mute = bit 22, emphasis = bit 23, the
    input width picked by bits [15:14] (0b10: 24, 0b01: 20, otherwise
    16), the rate picked by bit 12 (96000 when set, 48000 when clear) and
    channels = ((h >> 8) & 7) + 1.  [parse_header] is a total function:
    it yields a format for every bit pattern. *)
Theorem parse_header_layout (dec : GstDvdLpcmDec) (h : Z) :
  0 <= h < 2 ^ 24 ->
  let d := parse_header dec h in
  dynamic_range d = Z.land h 0xFF /\
  mute d = Z.testbit h 22 /\
  emphasis d = Z.testbit h 23 /\
  width d = (if depth_selector h =? 2 then 24
             else if depth_selector h =? 1 then 20 else 16) /\
  rate d = (if Z.testbit h 12 then 96000 else 48000) /\
  channels d = Z.land (Z.shiftr h 8) 0x7 + 1.
Proof.
  intros _ d. subst d.
  repeat split.
  - exact (land_pow2_testbit h 22 ltac:(lia)).
  - exact (land_pow2_testbit h 23 ltac:(lia)).
  - apply parse_header_width.
  - simpl. change 0x1000 with (2 ^ 12).
    now rewrite land_pow2_testbit by lia.
Qed.

Lemma parse_header_layout_witness :
  let d := parse_header gst_dvdlpcm_reset 0x8091A5 in
  dynamic_range d = 0xA5 /\ mute d = false /\ emphasis d = true /\
  width d = 24 /\ rate d = 96000 /\ channels d = 2.
Proof.
  pose proof (parse_header_layout gst_dvdlpcm_reset 0x8091A5 ltac:(lia)) as H.
  exact H.
Defined.

(** ** Conversions that change nothing *)

Lemma u8_small (z : Z) : 0 <= z < 256 -> u8 z = z.
Proof. intros H. unfold u8. change (2 ^ 8) with 256. now apply Z.mod_small. Qed.

Lemma land_0f_range (s : Z) : 0 <= Z.land s 0x0f < 16.
Proof.
  change 0x0f with (Z.ones 4). rewrite Z.land_ones by lia.
  change (2 ^ 4) with 16. apply Z.mod_pos_bound. lia.
Qed.

Lemma land_f0_range (s : Z) : 0 <= Z.land s 0xf0 < 256.
Proof.
  assert (E : Z.land s 0xf0 = Z.shiftl (Z.land (Z.shiftr s 4) 0x0f) 4).
  { apply Z.bits_inj'. intros n Hn.
    rewrite Z.land_spec.
    destruct (Z_lt_ge_dec n 4) as [Hlt|Hge].
    - rewrite Z.shiftl_spec_low by lia.
      change 0xf0 with (Z.shiftl 0x0f 4).
      rewrite (Z.shiftl_spec_low 0x0f 4 n) by lia. apply andb_false_r.
    - rewrite Z.shiftl_spec by lia.
      rewrite Z.land_spec, Z.shiftr_spec by lia.
      replace (n - 4 + 4) with n by lia. f_equal.
      replace 0xf0 with (Z.shiftl 0x0f 4) by reflexivity.
      now rewrite Z.shiftl_spec by lia. }
  rewrite E, Z.shiftl_mul_pow2 by lia. change (2 ^ 4) with 16.
  pose proof (land_0f_range (Z.shiftr s 4)). lia.
Qed.

Lemma u8_land_f0 (s : Z) : u8 (Z.land s 0xf0) = Z.land s 0xF0.
Proof. apply u8_small, land_f0_range. Qed.

Lemma u8_land_0f (s : Z) : u8 (Z.land s 0x0f) = Z.land s 0x0F.
Proof. apply u8_small. pose proof (land_0f_range s). lia. Qed.

Lemma u8_low_nibble_up (s : Z) :
  u8 (Z.shiftl (Z.land s 0x0f) 4) = Z.shiftl (Z.land s 0x0F) 4.
Proof.
  apply u8_small. rewrite Z.shiftl_mul_pow2 by lia. change (2 ^ 4) with 16.
  pose proof (land_0f_range s). lia.
Qed.

Create Rewrite HintDb lpcm_bytes.
#[local] Hint Rewrite u8_land_f0 u8_land_0f u8_low_nibble_up : lpcm_bytes.

Lemma u32_small (z : Z) : 0 <= z < 2 ^ 32 -> u32 z = z.
Proof. intros H. unfold u32. now apply Z.mod_small. Qed.

Lemma s32_small (z : Z) : - 2 ^ 31 <= z < 2 ^ 31 -> s32 z = z.
Proof.
  intros H. unfold s32. rewrite Z.mod_small; lia.
Qed.

Lemma u32_s32 (z : Z) : u32 (s32 z) = u32 z.
Proof.
  unfold u32, s32.
  rewrite Zminus_mod_idemp_l. f_equal. lia.
Qed.

(** Two bytes make a 16-bit first_access. *)
Lemma first_access_range (d0 d1 : Z) :
  0 <= d0 < 256 -> 0 <= d1 < 256 -> 0 <= first_access_of d0 d1 < 65536.
Proof.
  intros H0 H1. unfold first_access_of.
  assert (Hs : 0 <= Z.shiftl d0 8 < 2 ^ 16).
  { rewrite Z.shiftl_mul_pow2 by lia. change (2 ^ 8) with 256.
    change (2 ^ 16) with 65536. lia. }
  split.
  - apply Z.lor_nonneg. lia.
  - change 65536 with (2 ^ 16).
    destruct (Z.eq_dec (Z.lor (Z.shiftl d0 8) d1) 0) as [->|Hnz]; [lia|].
    assert (0 < Z.lor (Z.shiftl d0 8) d1).
    { pose proof (proj2 (Z.lor_nonneg (Z.shiftl d0 8) d1) ltac:(lia)). lia. }
    apply Z.log2_lt_pow2; [lia|].
    rewrite Z.log2_lor by lia.
    apply Z.max_lub_lt.
    + destruct (Z.eq_dec (Z.shiftl d0 8) 0) as [->|]; [reflexivity|].
      apply Z.log2_lt_pow2; lia.
    + destruct (Z.eq_dec d1 0) as [->|]; [reflexivity|].
      apply Z.log2_lt_pow2; [lia|]. change (2 ^ 16) with 65536. lia.
Qed.

Lemma sdiv_some (a b : Z) : b <> 0 -> sdiv a b = Some (Z.quot a b).
Proof. intros H. unfold sdiv. apply Z.eqb_neq in H. now rewrite H. Qed.

Lemma udiv_some (a b : Z) : 0 < b < 2 ^ 32 -> udiv a b = Some (a / b).
Proof.
  intros H. unfold udiv. rewrite u32_small by lia.
  destruct (Z.eqb_spec b 0); [lia | reflexivity].
Qed.

(** ** Memory: loads and stores behind a prefix *)

Lemma load_app_off (pre l : list Z) (k : nat) :
  load (pre ++ l) (length pre + k) = l !! k.
Proof.
  unfold load. rewrite lookup_app_r by lia. f_equal. lia.
Qed.

Lemma store_app_off (pre l : list Z) (k : nat) (v : Z) :
  (k < length l)%nat ->
  store (pre ++ l) (length pre + k) v = Some (pre ++ <[k := v]> l).
Proof.
  intros Hk. unfold store.
  destruct (decide (length pre + k < length (pre ++ l))%nat) as [_|Hn].
  - now rewrite insert_app_r.
  - rewrite length_app in Hn. lia.
Qed.

(** memcpy over [old], found behind [pre]. *)
Lemma memcpy_app (vs : list Z) :
  forall (pre old rest : list Z),
    length old = length vs ->
    memcpy (pre ++ old ++ rest) (length pre) vs = Some (pre ++ vs ++ rest).
Proof.
  induction vs as [|v vs IH]; intros pre old rest Hlen.
  - destruct old; [reflexivity | discriminate].
  - destruct old as [|o old]; [discriminate|].
    injection Hlen as Hlen. simpl.
    replace (length pre) with (length pre + 0)%nat at 1 by lia.
    rewrite store_app_off by (simpl; lia). simpl.
    specialize (IH (pre ++ [v]) old rest Hlen).
    rewrite length_app in IH. simpl in IH.
    replace (length pre + 1)%nat with (S (length pre)) in IH by lia.
    rewrite <- app_assoc in IH. simpl in IH. rewrite IH.
    now rewrite <- app_assoc.
Qed.

(** ** The 20-bit loop *)

Ltac mem_step :=
  first [ rewrite load_app_off; simpl
        | rewrite store_app_off by (simpl; lia); simpl ].

(** One turn of the loop, with [src] at the end of [spre] and [dest] at
    the end of [dpre]: the 12 bytes at [dest] become the mapping of the 10
    bytes at [src]. *)
Lemma expand20_group_app (spre srest dpre drest : list Z)
    (s0 s1 s2 s3 s4 s5 s6 s7 s8 s9 d0 d1 d2 d3 d4 d5 d6 d7 d8 d9 d10 d11 : Z) :
  expand20_group
    (spre ++ s0 :: s1 :: s2 :: s3 :: s4 :: s5 :: s6 :: s7 :: s8 :: s9 :: srest)
    (length spre)
    (dpre ++ d0 :: d1 :: d2 :: d3 :: d4 :: d5 :: d6 :: d7 :: d8 :: d9 :: d10 :: d11 :: drest)
    (length dpre)
  = Some (dpre ++
          [s0; s1; Z.land s8 0xF0;
           s2; s3; Z.shiftl (Z.land s8 0x0F) 4;
           s4; s5; Z.land s9 0x0F;
           s6; s7; Z.shiftl (Z.land s9 0x0F) 4] ++ drest).
Proof.
  unfold expand20_group.
  repeat mem_step.
  now autorewrite with lpcm_bytes.
Qed.

Lemma expand20_spec_short (l : list Z) :
  (length l < 10)%nat -> expand20_spec l = [].
Proof.
  intros H.
  do 10 (destruct l as [ | ? l ]; [reflexivity|]).
  simpl in H. lia.
Qed.

(** The loop over the [n] whole groups of [l]: what lies before the two
    pointers and after the [12 * n] bytes written stays as it is. *)
Lemma expand20_loop_app (n : nat) :
  forall (l spre dpre dold drest : list Z),
    (10 * n <= length l < 10 * n + 10)%nat ->
    length dold = (12 * n)%nat ->
    expand20_loop n (spre ++ l) (length spre) (dpre ++ dold ++ drest) (length dpre)
    = Some (dpre ++ expand20_spec l ++ drest).
Proof.
  induction n as [|n IH]; intros l spre dpre dold drest Hl Hd.
  - destruct dold; [|discriminate]. simpl.
    now rewrite expand20_spec_short by lia.
  - do 10 (destruct l as [ | ? l ]; [simpl in Hl; lia|]).
    do 12 (destruct dold as [ | ? dold ]; [simpl in Hd; lia|]).
    cbn [expand20_loop]. simpl app at 3.
    rewrite expand20_group_app. cbn [mbind option_bind].
    match goal with
    | |- expand20_loop n (spre ++ ?a0 :: ?a1 :: ?a2 :: ?a3 :: ?a4 :: ?a5 :: ?a6 ::
           ?a7 :: ?a8 :: ?a9 :: l) _ (dpre ++ ?m ++ _) _ = _ =>
        change (spre ++ a0 :: a1 :: a2 :: a3 :: a4 :: a5 :: a6 :: a7 :: a8 :: a9 :: l)
          with (spre ++ [a0; a1; a2; a3; a4; a5; a6; a7; a8; a9] ++ l);
        rewrite (app_assoc spre), (app_assoc dpre m)
    end.
    match goal with
    | |- expand20_loop n (?sp ++ l) _ (?dp ++ _) _ = _ =>
        replace (length spre + 10)%nat with (length sp)
          by (rewrite length_app; reflexivity);
        replace (length dpre + 12)%nat with (length dp)
          by (rewrite length_app; reflexivity)
    end.
    rewrite IH by (simpl in Hl, Hd; lia).
    rewrite <- app_assoc. reflexivity.
Qed.

Lemma expand20_spec_length (n : nat) :
  forall data : list Z,
    length data = (10 * n)%nat -> length (expand20_spec data) = (12 * n)%nat.
Proof.
  induction n as [|n IH]; intros data H.
  - destruct data; [reflexivity | discriminate].
  - do 10 (destruct data as [ | ? data ]; [cbn [length] in H; lia|]).
    cbn [expand20_spec app length]. rewrite (IH data) by (cbn [length] in H; lia).
    lia.
Qed.

Lemma expand20_spec_group (g : nat) :
  forall (data : list Z) (s0 s1 s2 s3 s4 s5 s6 s7 s8 s9 : Z),
    take 10 (drop (10 * g) data) = [s0; s1; s2; s3; s4; s5; s6; s7; s8; s9] ->
    take 12 (drop (12 * g) (expand20_spec data)) =
      [s0; s1; Z.land s8 0xF0;
       s2; s3; Z.shiftl (Z.land s8 0x0F) 4;
       s4; s5; Z.land s9 0x0F;
       s6; s7; Z.shiftl (Z.land s9 0x0F) 4].
Proof.
  induction g as [|g IH]; intros data s0 s1 s2 s3 s4 s5 s6 s7 s8 s9 H.
  - change (10 * 0)%nat with 0%nat in H. change (12 * 0)%nat with 0%nat.
    rewrite drop_0 in *.
    do 10 (destruct data as [ | ? data ]; [discriminate|]).
    cbn [take] in H. injection H as -> -> -> -> -> -> -> -> -> ->.
    reflexivity.
  - replace (10 * S g)%nat with (10 + 10 * g)%nat in H by lia.
    replace (12 * S g)%nat with (12 + 12 * g)%nat by lia.
    rewrite <- drop_drop in H. rewrite <- drop_drop.
    do 10 (destruct data as [ | ? data ];
           [cbn [drop] in H; rewrite ?drop_nil in H; discriminate|]).
    cbn [drop] in H. rewrite drop_0 in H.
    cbn [expand20_spec app drop]. rewrite drop_0.
    now apply IH.
Qed.

(** size / 10 is the number of whole 10-byte groups. *)
Lemma groups_of_10 (size : Z) :
  0 <= size ->
  (10 * Z.to_nat (size / 10) <= Z.to_nat size < 10 * Z.to_nat (size / 10) + 10)%nat.
Proof.
  intros H.
  pose proof (Z.mul_div_le size 10 ltac:(lia)).
  pose proof (Z.mul_succ_div_gt size 10 ltac:(lia)).
  pose proof (Z.div_pos size 10 H ltac:(lia)).
  lia.
Qed.

(** Without wrap-around the allocation holds every group the loop writes. *)
Lemma allocation_holds_groups (size : Z) :
  0 <= size -> size * 8 < 2 ^ 32 ->
  12 * (size / 10) <= u32 (size * 8) / 20 * 3.
Proof.
  intros H0 H1. rewrite u32_small by lia.
  pose proof (Z.mul_div_le size 10 ltac:(lia)).
  assert (4 * (size / 10) <= size * 8 / 20).
  { apply Z.div_le_lower_bound; lia. }
  lia.
Qed.

(** The loop as the 20-bit path runs it: size / 10 turns from offset 0
    of the input and of the allocated buffer [fresh]. *)
Lemma expand20_loop_alloc (data fresh : list Z) :
  (12 * Z.to_nat (Z.of_nat (length data) / 10) <= length fresh)%nat ->
  expand20_loop (Z.to_nat (Z.of_nat (length data) / 10)) data 0 fresh 0
  = Some (expand20_spec data
            ++ drop (12 * Z.to_nat (Z.of_nat (length data) / 10)) fresh).
Proof.
  intros Hf.
  set (n := Z.to_nat (Z.of_nat (length data) / 10)) in *.
  pose proof (groups_of_10 (Z.of_nat (length data)) ltac:(lia)) as Hg.
  fold n in Hg. rewrite Nat2Z.id in Hg.
  pose proof (expand20_loop_app n data [] [] (take (12 * n) fresh)
                (drop (12 * n) fresh) Hg
                ltac:(rewrite length_take; lia)) as H.
  cbn [app length] in H. now rewrite take_drop in H.
Qed.

(** A group written where fewer than 12 bytes are left overruns the
    output buffer. *)
Lemma expand20_group_overflow (data out : list Z) (src dest : nat) :
  (src + 10 <= length data)%nat ->
  (length out < dest + 12)%nat ->
  expand20_group data src out dest = None.
Proof.
  intros Hs Hd. unfold expand20_group, load.
  repeat match goal with
         | |- context [data !! ?i] =>
             destruct (lookup_lt_is_Some_2 data i ltac:(lia)) as [? ->]
         end.
  cbn [mbind option_bind]. unfold store.
  repeat match goal with
         | |- context [decide ?Q] =>
             destruct (decide Q) as [?|?]; cbn [mbind option_bind]; [|reflexivity]
         end.
  exfalso. rewrite !length_insert in *. lia.
Qed.

(** ** The 24-bit loop *)

(** One turn of the loop, with [src] at the end of [pre]: the nine loads
    into temp all read the group as it was, since the memcpy comes last. *)
Lemma reorder24_group_app (pre rest : list Z)
    (s0 s1 s2 s3 s4 s5 s6 s7 s8 s9 s10 s11 : Z) :
  reorder24_group
    (pre ++ s0 :: s1 :: s2 :: s3 :: s4 :: s5 :: s6 :: s7 :: s8 :: s9 :: s10 :: s11 :: rest)
    (length pre)
  = Some (pre ++ [s0; s1; s8; s2; s3; s9; s4; s5; s10; s6; s7; s11] ++ rest).
Proof.
  unfold reorder24_group.
  repeat (rewrite load_app_off; simpl).
  pose proof (memcpy_app [s8; s2; s3; s9; s4; s5; s10; s6; s7]
                (pre ++ [s0; s1]) [s2; s3; s4; s5; s6; s7; s8; s9; s10]
                (s11 :: rest) eq_refl) as H.
  rewrite length_app in H. simpl in H.
  rewrite <- !app_assoc in H. simpl in H.
  exact H.
Qed.

Lemma reorder24_spec_short (l : list Z) :
  (length l < 12)%nat -> reorder24_spec l = l.
Proof.
  intros H.
  do 12 (destruct l as [ | ? l ]; [reflexivity|]).
  simpl in H. lia.
Qed.

(** The loop over the [n] whole groups of [l]: in place, it yields what
    the mapping yields on the untouched [l]. *)
Lemma reorder24_loop_app (n : nat) :
  forall (pre l : list Z),
    (12 * n <= length l < 12 * n + 12)%nat ->
    reorder24_loop n (pre ++ l) (length pre) = Some (pre ++ reorder24_spec l).
Proof.
  induction n as [|n IH]; intros pre l Hl.
  - simpl. now rewrite reorder24_spec_short by lia.
  - do 12 (destruct l as [ | ? l ]; [simpl in Hl; lia|]).
    cbn [reorder24_loop].
    rewrite reorder24_group_app. cbn [mbind option_bind].
    rewrite (app_assoc pre).
    match goal with
    | |- reorder24_loop n (?p ++ l) _ = _ =>
        replace (length pre + 12)%nat with (length p)
          by (rewrite length_app; reflexivity)
    end.
    rewrite IH by (simpl in Hl; lia).
    rewrite <- app_assoc. reflexivity.
Qed.

Lemma reorder24_spec_group (g : nat) :
  forall (data : list Z) (s0 s1 s2 s3 s4 s5 s6 s7 s8 s9 s10 s11 : Z),
    take 12 (drop (12 * g) data) = [s0; s1; s2; s3; s4; s5; s6; s7; s8; s9; s10; s11] ->
    take 12 (drop (12 * g) (reorder24_spec data)) =
      [s0; s1; s8; s2; s3; s9; s4; s5; s10; s6; s7; s11].
Proof.
  induction g as [|g IH]; intros data s0 s1 s2 s3 s4 s5 s6 s7 s8 s9 s10 s11 H.
  - change (12 * 0)%nat with 0%nat in *. rewrite drop_0 in *.
    do 12 (destruct data as [ | ? data ]; [discriminate|]).
    cbn [take] in H. injection H as -> -> -> -> -> -> -> -> -> -> -> ->.
    reflexivity.
  - replace (12 * S g)%nat with (12 + 12 * g)%nat in * by lia.
    rewrite <- drop_drop in H. rewrite <- drop_drop.
    do 12 (destruct data as [ | ? data ];
           [cbn [drop] in H; rewrite ?drop_nil in H; discriminate|]).
    cbn [drop] in H. rewrite drop_0 in H.
    cbn [reorder24_spec app drop]. rewrite drop_0.
    now apply IH.
Qed.

(** size / 12 is the number of whole 12-byte groups. *)
Lemma groups_of_12 (size : Z) :
  0 <= size ->
  (12 * Z.to_nat (size / 12) <= Z.to_nat size < 12 * Z.to_nat (size / 12) + 12)%nat.
Proof.
  intros H.
  pose proof (Z.mul_div_le size 12 ltac:(lia)).
  pose proof (Z.mul_succ_div_gt size 12 ltac:(lia)).
  pose proof (Z.div_pos size 12 H ltac:(lia)).
  lia.
Qed.

Lemma reorder24_spec_length (n : nat) :
  forall data : list Z,
    (length data < 12 * n)%nat -> length (reorder24_spec data) = length data.
Proof.
  induction n as [|n IH]; intros data H; [lia|].
  destruct (Nat.lt_ge_cases (length data) 12) as [Hs|Hs].
  - now rewrite reorder24_spec_short.
  - do 12 (destruct data as [ | ? data ]; [cbn [length] in Hs; lia|]).
    cbn [reorder24_spec app length]. rewrite (IH data) by (cbn [length] in H; lia).
    reflexivity.
Qed.

(** The loop as the 24-bit path runs it: size / 12 turns from offset 0. *)
Lemma reorder24_loop_whole (data : list Z) :
  reorder24_loop (Z.to_nat (Z.of_nat (length data) / 12)) data 0
  = Some (reorder24_spec data).
Proof.
  pose proof (groups_of_12 (Z.of_nat (length data)) ltac:(lia)) as Hg.
  rewrite Nat2Z.id in Hg.
  exact (reorder24_loop_app _ [] data Hg).
Qed.

(** ** Timestamps *)

(** update_timestamps writes the cursor of the element and the duration
    and timestamp of the buffer, nothing else. *)
Lemma update_timestamps_cursor (d : GstDvdLpcmDec) (b : GstBuffer) (s : Z)
    (r : GstDvdLpcmDec * GstBuffer) :
  update_timestamps d b s = Some r ->
  fst r = set_cursor (timestamp (fst r)) d /\ buf_data (snd r) = buf_data b /\
  buf_caps (snd r) = buf_caps b.
Proof.
  unfold update_timestamps. destruct (sdiv (s * GST_SECOND) (rate d)); [|discriminate].
  cbn [mbind option_bind].
  destruct (GST_BUFFER_TIMESTAMP_IS_VALID _); intros [= <-]; auto.
Qed.

(** C8 (amended).  A chunk for which update_timestamps is given N samples
    at rate R gets the duration N * GST_SECOND / R nanoseconds, the
    quotient rounded down: N / R seconds to the nanosecond below, exact
    only when R divides N * 10^9.  When the chunk has a timestamp the
    cursor becomes that timestamp; otherwise the cursor advances by the
    duration (modulo 2^64) and the chunk is stamped with the advanced
    cursor.  In particular at 48000 Hz and without timestamp the cursor
    advances by N * 10^9 / 48000 nanoseconds rounded down. *)
Theorem update_timestamps_duration (d : GstDvdLpcmDec) (buf : GstBuffer) (N : Z) :
  0 <= N < 2 ^ 31 ->
  0 < rate d < 2 ^ 31 ->
  let dur := N * GST_SECOND / rate d in
  exists d' buf',
    update_timestamps d buf N = Some (d', buf') /\
    buf_duration buf' = dur /\
    rate d * dur <= N * GST_SECOND < rate d * dur + rate d /\
    (GST_BUFFER_TIMESTAMP_IS_VALID buf = true ->
       timestamp d' = buf_timestamp buf /\
       buf_timestamp buf' = buf_timestamp buf) /\
    (GST_BUFFER_TIMESTAMP_IS_VALID buf = false ->
       timestamp d' = u64 (timestamp d + dur) /\
       buf_timestamp buf' = timestamp d' /\
       (0 <= timestamp d -> timestamp d + dur < 2 ^ 64 ->
        timestamp d' = timestamp d + dur) /\
       (rate d = 48000 -> 0 <= timestamp d -> timestamp d + dur < 2 ^ 64 ->
        timestamp d' = timestamp d + N * 1000000000 / 48000)).
Proof.
  intros HN HR dur.
  assert (Hq : Z.quot (N * GST_SECOND) (rate d) = dur).
  { apply Z.quot_div_nonneg; unfold GST_SECOND; lia. }
  assert (Hdur : 0 <= dur <= N * GST_SECOND).
  { unfold dur. split.
    - apply Z.div_pos; unfold GST_SECOND; lia.
    - apply Z.div_le_upper_bound; [lia|]. unfold GST_SECOND. nia. }
  assert (Hu : u64 dur = dur).
  { unfold u64. apply Z.mod_small. unfold GST_SECOND in Hdur.
    change (2 ^ 31) with 2147483648 in HN.
    change (2 ^ 64) with 18446744073709551616. lia. }
  unfold update_timestamps. rewrite sdiv_some by lia.
  cbn [mbind option_bind]. rewrite Hq, Hu.
  change (GST_BUFFER_TIMESTAMP_IS_VALID (set_duration dur buf))
    with (GST_BUFFER_TIMESTAMP_IS_VALID buf).
  assert (Hbound : rate d * dur <= N * GST_SECOND < rate d * dur + rate d).
  { unfold dur.
    pose proof (Z.mul_div_le (N * GST_SECOND) (rate d) ltac:(lia)).
    pose proof (Z.mul_succ_div_gt (N * GST_SECOND) (rate d) ltac:(lia)). lia. }
  destruct (GST_BUFFER_TIMESTAMP_IS_VALID buf) eqn:Hv.
  - eexists _, _. split; [reflexivity|]. cbn [buf_duration set_duration].
    repeat split; try assumption; try lia; discriminate.
  - eexists _, _. split; [reflexivity|].
    cbn [buf_duration buf_timestamp set_duration set_timestamp set_cursor timestamp].
    split; [reflexivity|]. split; [exact Hbound|]. split; [discriminate|].
    intros _. split; [reflexivity|]. split; [reflexivity|].
    assert (Hnowrap : 0 <= timestamp d -> timestamp d + dur < 2 ^ 64 ->
                      u64 (timestamp d + dur) = timestamp d + dur).
    { intros. unfold u64. apply Z.mod_small. lia. }
    split; [exact Hnowrap|].
    intros HR48 H0 Hlt. rewrite (Hnowrap H0 Hlt). unfold dur, GST_SECOND.
    now rewrite HR48.
Qed.

Lemma update_timestamps_duration_witness :
  exists d' buf',
    update_timestamps (dec lpcm16) (chunk [] GST_CLOCK_TIME_NONE) 3
      = Some (d', buf') /\
    buf_duration buf' = 62500 /\
    timestamp d' = 62500 /\
    buf_timestamp buf' = 62500.
Proof.
  destruct (update_timestamps_duration (dec lpcm16)
              (chunk [] GST_CLOCK_TIME_NONE) 3
              ltac:(vm_compute; split; discriminate || reflexivity)
              ltac:(vm_compute; split; reflexivity))
    as (d' & buf' & Hrun & Hdur & _ & _ & Hnone).
  destruct (Hnone eq_refl) as (Ht & Hb & _).
  exists d', buf'. split; [exact Hrun|]. split; [exact Hdur|].
  split; [exact Ht|]. rewrite Hb. exact Ht.
Defined.

(** C8, as stated, fails: one sample at 48000 Hz advances the cursor by
    20833 ns, which is not 1 / 48000 s (20833 * 48000 is not 10^9). *)
Lemma cursor_advance_inexact :
  exists d' buf',
    update_timestamps (dec lpcm16) (chunk [] GST_CLOCK_TIME_NONE) 1
      = Some (d', buf') /\
    rate (dec lpcm16) = 48000 /\
    timestamp d' - timestamp (dec lpcm16) = 20833 /\
    buf_duration buf' = 20833 /\
    20833 * 48000 <> 1 * GST_SECOND.
Proof.
  eexists _, _. split; [vm_compute; reflexivity|].
  repeat split; vm_compute; discriminate.
Qed.

(** ** Traces *)

Lemma new_events_app (w w' : World) (evs : list Event) :
  trace w' = trace w ++ evs -> new_events w w' = evs.
Proof.
  intros E. unfold new_events. rewrite E. apply drop_app_length.
Qed.

Lemma chain_raw_calls_app (a b : list Event) :
  chain_raw_calls (a ++ b) = chain_raw_calls a ++ chain_raw_calls b.
Proof. apply omap_app. Qed.

Lemma set_caps_calls_app (a b : list Event) :
  set_caps_calls (a ++ b) = set_caps_calls a ++ set_caps_calls b.
Proof. apply omap_app. Qed.

Ltac run_monad :=
  unfold push_converted, gst_pad_push, gst_pad_alloc_buffer, gst_pad_set_caps,
    GST_PAD_IS_USABLE, GST_ELEMENT_ERROR, bind, ret, lift, emit, get_dec,
    put_dec, get_trace; cbn [fst snd dec trace].

Ltac case_split :=
  match goal with
  | |- context [if ?c then _ else _] => destruct c eqn:?
  | |- context [match ?o with Some _ => _ | None => _ end] => destruct o eqn:?
  end; cbn [fst snd dec trace].

(** What one run of the converter adds to the trace, crash or not: the
    call itself, then nothing but allocation, push and error events. *)
Lemma chain_raw_trace (P : Pipeline) (buf : GstBuffer) (w : World) :
  exists evs,
    trace (snd (gst_dvdlpcmdec_chain_raw P buf w)) = trace w ++ EvChainRaw buf :: evs /\
    set_caps_calls evs = [] /\
    chain_raw_calls evs = [].
Proof.
  unfold gst_dvdlpcmdec_chain_raw. run_monad.
  repeat case_split;
    rewrite <- ?app_assoc; cbn [app];
    eexists; (split; [reflexivity | split; reflexivity]).
Qed.

(** The converter changes nothing of the element but the cursor. *)
Lemma chain_raw_dec (P : Pipeline) (buf : GstBuffer) (w : World) :
  exists t, dec (snd (gst_dvdlpcmdec_chain_raw P buf w)) = set_cursor t (dec w).
Proof.
  assert (Hid : dec w = set_cursor (timestamp (dec w)) (dec w)) by (now destruct (dec w)).
  unfold gst_dvdlpcmdec_chain_raw. run_monad.
  repeat case_split; try (exists (timestamp (dec w)); exact Hid);
    match goal with
    | H : update_timestamps _ _ _ = Some ?r |- _ =>
        apply update_timestamps_cursor in H; destruct H as (H & _);
        exists (timestamp (fst r)); exact H
    end.
Qed.

Lemma chain_raw_header (P : Pipeline) (buf : GstBuffer) (w : World) :
  header (dec (snd (gst_dvdlpcmdec_chain_raw P buf w))) = header (dec w).
Proof.
  destruct (chain_raw_dec P buf w) as [t ->]. reflexivity.
Qed.

Lemma chain_raw_format (P : Pipeline) (buf : GstBuffer) (w : World) :
  format_of (dec (snd (gst_dvdlpcmdec_chain_raw P buf w))) = format_of (dec w).
Proof.
  destruct (chain_raw_dec P buf w) as [t ->]. reflexivity.
Qed.

(** Caps, timestamps and push succeed whenever the rate is not zero. *)
Lemma push_converted_run (P : Pipeline) (b : GstBuffer) (s : Z) (w : World) :
  rate (dec w) <> 0 ->
  exists d' out,
    update_timestamps (dec w) (gst_buffer_set_caps b (srcpad_caps (dec w))) (s32 s)
      = Some (d', out) /\
    push_converted P b s w
      = (Some (pad_push P (trace w) out), mkWorld d' (trace w ++ [EvPush out])) /\
    buf_data out = buf_data b /\
    buf_caps out = srcpad_caps (dec w).
Proof.
  intros Hr.
  destruct (update_timestamps (dec w) (gst_buffer_set_caps b (srcpad_caps (dec w))) (s32 s))
    as [[d' out]|] eqn:Hu.
  - exists d', out. pose proof (update_timestamps_cursor _ _ _ _ Hu) as (_ & Hd & Hc).
    repeat split; try assumption.
    run_monad. rewrite Hu. reflexivity.
  - exfalso. unfold update_timestamps in Hu. rewrite sdiv_some in Hu by assumption.
    cbn [mbind option_bind] in Hu.
    destruct (GST_BUFFER_TIMESTAMP_IS_VALID _); discriminate.
Qed.

(** update_timestamps on a count of samples that fits an int, at a
    positive rate. *)
Lemma update_timestamps_value (d : GstDvdLpcmDec) (buf : GstBuffer) (N : Z) :
  0 < rate d -> 0 <= N < 2 ^ 31 ->
  let dur := N * GST_SECOND / rate d in
  update_timestamps d buf N =
  Some (if GST_BUFFER_TIMESTAMP_IS_VALID buf
        then (set_cursor (buf_timestamp buf) d, set_duration dur buf)
        else (set_cursor (u64 (timestamp d + dur)) d,
              set_timestamp (u64 (timestamp d + dur)) (set_duration dur buf))).
Proof.
  intros Hr HN dur. unfold update_timestamps.
  rewrite sdiv_some by lia. cbn [mbind option_bind].
  assert (Hq : u64 (Z.quot (N * GST_SECOND) (rate d)) = dur).
  { unfold GST_SECOND in *. rewrite Z.quot_div_nonneg by lia.
    unfold u64. apply Z.mod_small. split.
    - apply Z.div_pos; lia.
    - apply Z.div_lt_upper_bound; lia. }
  rewrite Hq.
  change (GST_BUFFER_TIMESTAMP_IS_VALID (set_duration dur buf))
    with (GST_BUFFER_TIMESTAMP_IS_VALID buf).
  destruct (GST_BUFFER_TIMESTAMP_IS_VALID buf); reflexivity.
Qed.

(** The common end of the three paths, in full. *)
Lemma push_converted_value (P : Pipeline) (b : GstBuffer) (s : Z) (w : World) :
  0 < rate (dec w) -> 0 <= s < 2 ^ 31 ->
  let dur := s * GST_SECOND / rate (dec w) in
  let t := if GST_BUFFER_TIMESTAMP_IS_VALID b then buf_timestamp b
           else u64 (timestamp (dec w) + dur) in
  let out := mkBuffer (buf_data b) t dur (srcpad_caps (dec w)) in
  push_converted P b s w =
  (Some (pad_push P (trace w) out),
   mkWorld (set_cursor t (dec w)) (trace w ++ [EvPush out])).
Proof.
  intros Hr Hs dur t out. unfold push_converted. run_monad.
  rewrite s32_small by lia.
  rewrite update_timestamps_value by assumption. fold dur.
  change (GST_BUFFER_TIMESTAMP_IS_VALID (gst_buffer_set_caps b (srcpad_caps (dec w))))
    with (GST_BUFFER_TIMESTAMP_IS_VALID b).
  subst out t. destruct (GST_BUFFER_TIMESTAMP_IS_VALID b); reflexivity.
Qed.

(** ** The converter, path by path

    One payload [buf] handed to the converter in the world [w], with a
    rate and a source pad that let it through to the switch on the
    width. *)
Section Converter.

Context (P : Pipeline) (buf : GstBuffer) (w : World).
Hypothesis negotiated : rate (dec w) <> 0.
Hypothesis usable : pad_is_usable P (trace (entered buf w)) = true.

Lemma chain_raw_16_run :
  width (dec w) = 16 ->
  0 < channels (dec w) < 2 ^ 32 ->
  gst_dvdlpcmdec_chain_raw P buf w =
  push_converted P buf (buf_size buf / channels (dec w) / 2) (entered buf w).
Proof.
  pose proof negotiated as Hr. pose proof usable as Hu.
  intros Hw Hc. unfold gst_dvdlpcmdec_chain_raw, entered in *.
  cbv beta iota delta [GST_PAD_IS_USABLE GST_ELEMENT_ERROR bind ret lift emit
    get_dec get_trace]; cbn [fst snd dec trace] in *.
  apply Z.eqb_neq in Hr. rewrite Hr. cbn [fst snd dec trace].
  rewrite Hu, Hw. cbn [negb Z.eqb Pos.eqb].
  rewrite udiv_some by assumption. reflexivity.
Qed.

Lemma chain_raw_24_run :
  width (dec w) = 24 ->
  0 < channels (dec w) < 2 ^ 32 ->
  gst_dvdlpcmdec_chain_raw P buf w =
  match reorder24_loop (Z.to_nat (buf_size buf / 12)) (buf_data buf) 0 with
  | Some mem =>
      push_converted P (set_data mem buf) (buf_size buf / channels (dec w) / 3)
        (entered buf w)
  | None => (None, entered buf w)
  end.
Proof.
  pose proof negotiated as Hr. pose proof usable as Hu.
  intros Hw Hc. unfold gst_dvdlpcmdec_chain_raw, entered in *.
  cbv beta iota delta [GST_PAD_IS_USABLE GST_ELEMENT_ERROR bind ret lift emit
    get_dec get_trace]; cbn [fst snd dec trace] in *.
  apply Z.eqb_neq in Hr. rewrite Hr. cbn [fst snd dec trace].
  rewrite Hu, Hw. cbn [negb Z.eqb Pos.eqb].
  rewrite udiv_some by assumption.
  destruct (reorder24_loop _ _ _); reflexivity.
Qed.

(** The 20-bit path up to its loop: [asked] is the size it asks the
    allocator for. *)
Lemma chain_raw_20_run :
  width (dec w) = 20 ->
  channels (dec w) <> 0 ->
  let asked := u32 (buf_size buf * 8) / 20 * 3 in
  pad_alloc_buffer P (trace (entered buf w)) asked = GST_FLOW_OK ->
  let w2 := mkWorld (dec w) (trace w ++ [EvChainRaw buf; EvAllocBuffer asked]) in
  gst_dvdlpcmdec_chain_raw P buf w =
  match expand20_loop (Z.to_nat (buf_size buf / 10)) (buf_data buf) 0
          (map (pad_alloc_fill P) (seq 0 (Z.to_nat asked))) 0 with
  | Some out =>
      push_converted P
        (mkBuffer out (buf_timestamp buf) (buf_duration buf) (srcpad_caps (dec w)))
        0 w2
  | None => (None, w2)
  end.
Proof.
  pose proof negotiated as Hr. pose proof usable as Hu.
  intros Hw Hc asked Ha w2. unfold gst_dvdlpcmdec_chain_raw, entered in *.
  cbv beta iota delta [GST_PAD_IS_USABLE GST_ELEMENT_ERROR gst_pad_alloc_buffer
    bind ret lift emit get_dec get_trace]; cbn [fst snd dec trace] in *.
  apply Z.eqb_neq in Hr. rewrite Hr. cbn [fst snd dec trace].
  rewrite Hu, Hw. cbn [negb Z.eqb Pos.eqb fst snd dec trace].
  fold asked. rewrite Ha. cbn [flow_is_ok negb fst snd dec trace].
  rewrite sdiv_some by assumption.
  unfold w2. rewrite <- app_assoc. cbn [app].
  destruct (expand20_loop _ _ _ _ _); reflexivity.
Qed.

Lemma chain_raw_16_converts :
  width (dec w) = 16 ->
  0 < channels (dec w) < 2 ^ 32 ->
  exists out w',
    gst_dvdlpcmdec_chain_raw P buf w =
      (Some (pad_push P (trace w ++ [EvChainRaw buf]) out), w') /\
    trace w' = trace w ++ [EvChainRaw buf; EvPush out] /\
    buf_data out = buf_data buf.
Proof.
  pose proof negotiated as Hr. pose proof usable as Hu.
  intros Hw Hc.
  rewrite (chain_raw_16_run Hw Hc).
  destruct (push_converted_run P buf (buf_size buf / channels (dec w) / 2)
              (entered buf w) Hr) as (d' & out & _ & Hpush & Hdata & _).
  exists out, (mkWorld d' (trace w ++ [EvChainRaw buf; EvPush out])).
  rewrite Hpush. cbn [entered trace]. rewrite <- app_assoc. auto.
Qed.

Lemma chain_raw_24_converts :
  width (dec w) = 24 ->
  0 < channels (dec w) < 2 ^ 32 ->
  exists out w',
    gst_dvdlpcmdec_chain_raw P buf w =
      (Some (pad_push P (trace w ++ [EvChainRaw buf]) out), w') /\
    trace w' = trace w ++ [EvChainRaw buf; EvPush out] /\
    buf_data out = reorder24_spec (buf_data buf).
Proof.
  pose proof negotiated as Hr. pose proof usable as Hu.
  intros Hw Hc.
  rewrite (chain_raw_24_run Hw Hc).
  unfold buf_size at 1. rewrite reorder24_loop_whole.
  destruct (push_converted_run P (set_data (reorder24_spec (buf_data buf)) buf)
              (buf_size buf / channels (dec w) / 3)
              (entered buf w) Hr) as (d' & out & _ & Hpush & Hdata & _).
  exists out, (mkWorld d' (trace w ++ [EvChainRaw buf; EvPush out])).
  rewrite Hpush. cbn [entered trace]. rewrite <- app_assoc. auto.
Qed.

(** The 20-bit path on an input it can hold: every whole 10-byte group
    is expanded as the mapping says, into the allocated buffer. *)
Lemma chain_raw_20_converts :
  width (dec w) = 20 ->
  channels (dec w) <> 0 ->
  buf_size buf * 8 < 2 ^ 32 ->
  let asked := buf_size buf * 8 / 20 * 3 in
  pad_alloc_buffer P (trace (entered buf w)) asked = GST_FLOW_OK ->
  exists out w',
    gst_dvdlpcmdec_chain_raw P buf w =
      (Some (pad_push P (trace w ++ [EvChainRaw buf; EvAllocBuffer asked]) out), w') /\
    trace w' = trace w ++ [EvChainRaw buf; EvAllocBuffer asked; EvPush out] /\
    buf_data out =
      expand20_spec (buf_data buf)
        ++ drop (12 * Z.to_nat (buf_size buf / 10))
             (map (pad_alloc_fill P) (seq 0 (Z.to_nat asked))) /\
    buf_duration out = 0.
Proof.
  pose proof negotiated as Hr. pose proof usable as Hu.
  intros Hw Hc Hsz asked Ha.
  assert (H0 : 0 <= buf_size buf) by (unfold buf_size; lia).
  assert (Easked : u32 (buf_size buf * 8) / 20 * 3 = asked).
  { unfold asked. now rewrite u32_small by lia. }
  pose proof (chain_raw_20_run Hw Hc) as Hrun.
  cbv zeta in Hrun. rewrite Easked in Hrun. rewrite (Hrun Ha). clear Hrun.
  pose proof (allocation_holds_groups (buf_size buf) H0 Hsz) as Hall.
  rewrite Easked in Hall.
  unfold buf_size at 1.
  rewrite expand20_loop_alloc
    by (rewrite length_map, length_seq; fold (buf_size buf);
        pose proof (Z.div_pos (buf_size buf) 10 H0 ltac:(lia)); lia).
  fold (buf_size buf).
  match goal with
  | |- context [push_converted P ?b 0 ?w2] =>
      destruct (push_converted_run P b 0 w2 Hr) as (d' & out & Hup & Hpush & Hdata & _)
  end.
  exists out, (mkWorld d' (trace w ++ [EvChainRaw buf; EvAllocBuffer asked; EvPush out])).
  rewrite Hpush. cbn [trace dec]. rewrite <- app_assoc. cbn [app].
  repeat split; [exact Hdata|].
  unfold update_timestamps in Hup. cbn [dec] in Hup.
  rewrite sdiv_some in Hup by assumption. cbn [mbind option_bind] in Hup.
  change (s32 0 * GST_SECOND) with 0 in Hup. rewrite Z.quot_0_l in Hup by assumption.
  destruct (GST_BUFFER_TIMESTAMP_IS_VALID _) in Hup; injection Hup as <- <-; reflexivity.
Qed.

(** When the allocation is shorter than one output group although the
    input holds a whole group, the first turn of the loop writes past
    the end of the allocated buffer. *)
Lemma chain_raw_20_overflow :
  width (dec w) = 20 ->
  channels (dec w) <> 0 ->
  let asked := u32 (buf_size buf * 8) / 20 * 3 in
  pad_alloc_buffer P (trace (entered buf w)) asked = GST_FLOW_OK ->
  10 <= buf_size buf ->
  0 <= asked < 12 ->
  gst_dvdlpcmdec_chain_raw P buf w =
  (None, mkWorld (dec w) (trace w ++ [EvChainRaw buf; EvAllocBuffer asked])).
Proof.
  pose proof negotiated as Hr. pose proof usable as Hu.
  intros Hw Hc asked Ha Hsz Hasked.
  rewrite (chain_raw_20_run Hw Hc Ha). fold asked.
  assert (Hn : exists k, Z.to_nat (buf_size buf / 10) = S k).
  { exists (Z.to_nat (buf_size buf / 10 - 1)).
    pose proof (Z.div_le_lower_bound (buf_size buf) 10 1 ltac:(lia) ltac:(lia)). lia. }
  destruct Hn as [k ->]. cbn [expand20_loop].
  rewrite expand20_group_overflow; [reflexivity | |].
  - unfold buf_size in Hsz. lia.
  - rewrite length_map, length_seq. lia.
Qed.

(** A payload of 10 * k bytes, fewer than 2^29: the 20-bit path pushes the
    newly allocated buffer of 12 * k bytes, which holds, group by group,
    the 12 bytes the mapping makes of the 10 bytes of the input. *)
Lemma chain_raw_20_mapping (k : Z) :
  width (dec w) = 20 ->
  channels (dec w) <> 0 ->
  buf_size buf = 10 * k ->
  buf_size buf * 8 < 2 ^ 32 ->
  pad_alloc_buffer P (trace (entered buf w)) (12 * k) = GST_FLOW_OK ->
  exists out w',
    gst_dvdlpcmdec_chain_raw P buf w =
      (Some (pad_push P (trace w ++ [EvChainRaw buf; EvAllocBuffer (12 * k)]) out), w') /\
    trace w' = trace w ++ [EvChainRaw buf; EvAllocBuffer (12 * k); EvPush out] /\
    buf_data out = expand20_spec (buf_data buf) /\
    buf_size out = 12 * k /\
    forall (g : nat) (s0 s1 s2 s3 s4 s5 s6 s7 s8 s9 : Z),
      take 10 (drop (10 * g) (buf_data buf)) = [s0; s1; s2; s3; s4; s5; s6; s7; s8; s9] ->
      take 12 (drop (12 * g) (buf_data out)) =
        [s0; s1; Z.land s8 0xF0;
         s2; s3; Z.shiftl (Z.land s8 0x0F) 4;
         s4; s5; Z.land s9 0x0F;
         s6; s7; Z.shiftl (Z.land s9 0x0F) 4].
Proof.
  pose proof negotiated as Hr. pose proof usable as Hu.
  intros Hw Hc Hk Hsz Ha.
  assert (H0 : 0 <= buf_size buf) by (unfold buf_size; lia).
  assert (Easked : buf_size buf * 8 / 20 * 3 = 12 * k).
  { rewrite Hk. replace (10 * k * 8) with (4 * k * 20) by lia.
    rewrite Z.div_mul by lia. lia. }
  assert (Ecount : buf_size buf / 10 = k).
  { rewrite Hk, Z.mul_comm. apply Z.div_mul. lia. }
  pose proof (chain_raw_20_converts Hw Hc Hsz) as H.
  cbv zeta in H. rewrite Easked, Ecount in H.
  destruct (H Ha) as (out & w' & Hrun & Ht & Hdata & _).
  assert (Hdata' : buf_data out = expand20_spec (buf_data buf)).
  { rewrite Hdata. rewrite drop_ge, app_nil_r; [reflexivity|].
    rewrite length_map, length_seq. lia. }
  exists out, w'. repeat split; try assumption.
  - unfold buf_size. rewrite Hdata'.
    rewrite (expand20_spec_length (Z.to_nat k)); unfold buf_size in *; lia.
  - intros g s0 s1 s2 s3 s4 s5 s6 s7 s8 s9 Hg. rewrite Hdata'.
    now apply expand20_spec_group.
Qed.

End Converter.

(** ** The claims about the converter *)

(** C2 (the failing input).  A 20-bit payload of 536870920 bytes, a
    multiple of 10 that fits a guint: [size * 8] wraps around to 64, the
    path allocates 9 bytes for an output of 644245104, the first group it
    writes overruns them, and nothing is pushed. *)
Theorem expand20_overruns_allocation :
  buf_size large_input = 10 * 53687092 /\
  buf_size large_input < 2 ^ 32 /\
  gst_dvdlpcmdec_chain_raw accepting large_input lpcm20 =
  (None, mkWorld (dec lpcm20)
           (trace lpcm20 ++ [EvChainRaw large_input; EvAllocBuffer 9])).
Proof.
  assert (Hsize : buf_size large_input = 536870920).
  { unfold buf_size, large_input, chunk. cbn [buf_data].
    rewrite length_replicate. apply Z2Nat.id. lia. }
  split; [exact Hsize|]. split; [rewrite Hsize; reflexivity|].
  pose proof (chain_raw_20_overflow accepting large_input lpcm20) as H.
  cbv zeta in H. rewrite Hsize in H.
  change (u32 (536870920 * 8) / 20 * 3) with 9 in H.
  apply H; try reflexivity; try lia.
  - change (rate (dec lpcm20)) with 48000. lia.
  - change (channels (dec lpcm20)) with 1. lia.
Qed.

(** C3 (amended).  The 20-bit path turns the 10-byte group
    [0x11,0x22,0x33,0x44,0x55,0x66,0x77,0x88,0xA5,0x5A] into a 12-byte
    group whose byte 2 is 0xA0, byte 5 is 0x50 and byte 11 is 0xA0, and
    whose bytes 0, 1, 3, 4, 6, 7, 9 and 10 are the input bytes 0 to 7,
    copied as the mapping says.  Byte 8 is left out: the code puts
    src9 & 0x0F there, 0x0A for this group, which is not the 0x05 of the
    claim and not a byte with 0x00 in the lowest nibble either, as the
    comment of the loop has it. *)
Theorem example_group_expansion (P : Pipeline) (w : World)
    (ts dur : Z) (caps : option GstCaps) :
  let buf := mkBuffer example_group ts dur caps in
  rate (dec w) <> 0 ->
  pad_is_usable P (trace (entered buf w)) = true ->
  width (dec w) = 20 ->
  channels (dec w) <> 0 ->
  pad_alloc_buffer P (trace (entered buf w)) 12 = GST_FLOW_OK ->
  exists out,
    pushed (new_events w (snd (gst_dvdlpcmdec_chain_raw P buf w))) = [out] /\
    length (buf_data out) = 12%nat /\
    take 8 (buf_data out) = [0x11; 0x22; 0xA0; 0x33; 0x44; 0x50; 0x55; 0x66] /\
    drop 9 (buf_data out) = [0x77; 0x88; 0xA0].
Proof.
  intros buf Hr Hu Hw Hc Ha.
  destruct (chain_raw_20_mapping P buf w Hr Hu 1 Hw Hc eq_refl eq_refl Ha)
    as (out & w' & Hrun & Ht & Hdata & _).
  exists out. rewrite Hrun. cbn [snd].
  rewrite (new_events_app _ _ _ Ht). split; [reflexivity|].
  rewrite Hdata. repeat split.
Qed.

Lemma example_group_expansion_witness :
  exists out,
    pushed (new_events lpcm20
              (snd (gst_dvdlpcmdec_chain_raw accepting
                      (chunk example_group GST_CLOCK_TIME_NONE) lpcm20))) = [out] /\
    length (buf_data out) = 12%nat /\
    take 8 (buf_data out) = [0x11; 0x22; 0xA0; 0x33; 0x44; 0x50; 0x55; 0x66] /\
    drop 9 (buf_data out) = [0x77; 0x88; 0xA0].
Proof.
  apply (example_group_expansion accepting lpcm20
           GST_CLOCK_TIME_NONE GST_CLOCK_TIME_NONE None);
    try reflexivity; vm_compute; discriminate.
Defined.

(** C3, as stated, fails: byte 8 of the output group is 0x0A, not 0x05. *)
Lemma example_group_byte_8 :
  exists out,
    pushed (new_events lpcm20
              (snd (gst_dvdlpcmdec_chain_raw accepting
                      (chunk example_group GST_CLOCK_TIME_NONE) lpcm20))) = [out] /\
    buf_data out !! 8%nat = Some 0x0A /\
    buf_data out !! 8%nat <> Some 0x05.
Proof.
  eexists. split; [vm_compute; reflexivity|].
  split; [reflexivity | discriminate].
Qed.

(** C4.  The 24-bit path works in place and yields what the mapping
    yields on an untouched copy of the input: in every 12-byte group
    bytes 0, 1 and 11 stay and bytes 2..10 become the bytes 8, 2, 3, 9, 4,
    5, 10, 6, 7 the group had before; and the transform is not its own
    inverse: applied twice to a group whose bytes 2 and 10 differ it does
    not give the group back. *)
Theorem reorder24_in_place (P : Pipeline) (buf : GstBuffer) (w : World) (k : Z) :
  rate (dec w) <> 0 ->
  pad_is_usable P (trace (entered buf w)) = true ->
  width (dec w) = 24 ->
  1 <= channels (dec w) <= 8 ->
  buf_size buf = 12 * k ->
  (exists out,
     pushed (new_events w (snd (gst_dvdlpcmdec_chain_raw P buf w))) = [out] /\
     reorder24_loop (Z.to_nat (buf_size buf / 12)) (buf_data buf) 0
       = Some (buf_data out) /\
     buf_data out = reorder24_spec (buf_data buf) /\
     length (buf_data out) = length (buf_data buf) /\
     forall (g : nat) (s0 s1 s2 s3 s4 s5 s6 s7 s8 s9 s10 s11 : Z),
       take 12 (drop (12 * g) (buf_data buf))
         = [s0; s1; s2; s3; s4; s5; s6; s7; s8; s9; s10; s11] ->
       take 12 (drop (12 * g) (buf_data out))
         = [s0; s1; s8; s2; s3; s9; s4; s5; s10; s6; s7; s11]) /\
  (forall (s0 s1 s2 s3 s4 s5 s6 s7 s8 s9 s10 s11 : Z),
     s2 <> s10 ->
     let group := [s0; s1; s2; s3; s4; s5; s6; s7; s8; s9; s10; s11] in
     exists once twice,
       reorder24_loop 1 group 0 = Some once /\
       reorder24_loop 1 once 0 = Some twice /\
       twice <> group).
Proof.
  intros Hr Hu Hw Hc Hk. split.
  - destruct (chain_raw_24_converts P buf w Hr Hu Hw ltac:(lia))
      as (out & w' & Hrun & Ht & Hdata).
    exists out. rewrite Hrun. cbn [snd]. rewrite (new_events_app _ _ _ Ht).
    split; [reflexivity|]. split.
    { unfold buf_size. rewrite Hdata. apply reorder24_loop_whole. }
    split; [exact Hdata|]. split.
    + rewrite Hdata.
      apply (reorder24_spec_length (S (length (buf_data buf)))). lia.
    + intros g s0 s1 s2 s3 s4 s5 s6 s7 s8 s9 s10 s11 Hg. rewrite Hdata.
      now apply reorder24_spec_group.
  - intros s0 s1 s2 s3 s4 s5 s6 s7 s8 s9 s10 s11 Hne group. subst group.
    match goal with |- context [reorder24_loop 1 ?g 0] => set (group := g) end.
    exists (reorder24_spec group), (reorder24_spec (reorder24_spec group)).
    split; [exact (reorder24_loop_app 1 [] group
                     ltac:(unfold group; cbn [length]; lia))|].
    split; [exact (reorder24_loop_app 1 [] (reorder24_spec group)
                     ltac:(unfold group; cbn [length reorder24_spec app]; lia))|].
    unfold group. cbn [reorder24_spec app]. intros [= ? ?]. congruence.
Qed.

Lemma reorder24_in_place_witness :
  exists out,
    pushed (new_events lpcm24
              (snd (gst_dvdlpcmdec_chain_raw accepting
                      group24 lpcm24)))
      = [out] /\
    buf_data out =
      [0xC0; 0xC1; 0xC8; 0xC2; 0xC3; 0xC9; 0xC4; 0xC5; 0xCA; 0xC6; 0xC7; 0xCB].
Proof.
  destruct (proj1 (reorder24_in_place accepting
                     group24 lpcm24 1
                     ltac:(vm_compute; discriminate) eq_refl eq_refl
                     ltac:(vm_compute; split; discriminate) eq_refl))
    as (out & Hp & _ & Hd & _).
  exists out. split; [exact Hp|]. rewrite Hd. reflexivity.
Defined.

(** C9 (amended).  The converter has no check of the payload length and
    no malformed-input error: with a negotiated format (rate not zero, 1
    to 8 channels, width 16, 24 or 20) and a usable source pad (for
    width 20 also: fewer than 2^29 bytes and a successful allocation), a
    payload of any length, so also one that is not a whole number of
    sample frames, is converted without crash and without error and
    exactly one buffer is pushed.  For a width of 16 its bytes are those
    of the payload, for a width of 24 the whole 12-byte groups are
    reordered and the other bytes unchanged, and for both widths (at a
    positive rate, for a size that fits a guint) its duration is that of
    size / channels / bytes-per-sample samples, each quotient truncated.
    What the 20-bit path puts into the buffer and its duration are left
    out. *)
Theorem converter_has_no_length_check (P : Pipeline) (buf : GstBuffer) (w : World) :
  rate (dec w) <> 0 ->
  pad_is_usable P (trace (entered buf w)) = true ->
  1 <= channels (dec w) <= 8 ->
  width (dec w) = 16 \/ width (dec w) = 24 \/
    (width (dec w) = 20 /\ buf_size buf * 8 < 2 ^ 32 /\
     pad_alloc_buffer P (trace (entered buf w)) (buf_size buf * 8 / 20 * 3)
       = GST_FLOW_OK) ->
  let run := gst_dvdlpcmdec_chain_raw P buf w in
  let evs := new_events w (snd run) in
  exists out r,
    fst run = Some r /\
    pushed evs = [out] /\
    element_errors evs = [] /\
    (width (dec w) = 16 -> buf_data out = buf_data buf) /\
    (width (dec w) = 24 -> buf_data out = reorder24_spec (buf_data buf)) /\
    (width (dec w) = 16 \/ width (dec w) = 24 ->
     0 < rate (dec w) -> buf_size buf < 2 ^ 32 ->
     let samples := buf_size buf / channels (dec w) / (width (dec w) / 8) in
     buf_duration out = samples * GST_SECOND / rate (dec w)).
Proof.
  intros Hr Hu Hc Hw run evs. subst evs run.
  assert (H0 : 0 <= buf_size buf) by (unfold buf_size; lia).
  assert (Hs : forall k, 2 <= k -> buf_size buf < 2 ^ 32 ->
                 0 <= buf_size buf / channels (dec w) / k < 2 ^ 31).
  { intros k Hk Hsz. split.
    - apply Z.div_pos; [apply Z.div_pos|]; lia.
    - apply Z.div_lt_upper_bound; [lia|].
      assert (buf_size buf / channels (dec w) <= buf_size buf); [|lia].
      apply Z.div_le_upper_bound; nia. }
  destruct Hw as [Hw|[Hw|(Hw & Hsz & Ha)]].
  - destruct (chain_raw_16_converts P buf w Hr Hu Hw ltac:(lia))
      as (out & w' & Hrun & Ht & Hdata).
    exists out. eexists. rewrite Hrun. cbn [fst snd].
    rewrite (new_events_app _ _ _ Ht).
    split; [reflexivity|]. split; [reflexivity|]. split; [reflexivity|].
    split; [intros _; exact Hdata|].
    split; [intros H24; rewrite Hw in H24; discriminate|].
    intros _ Hpos Hsz. rewrite Hw. change (16 / 8) with 2. cbv zeta.
    pose proof (chain_raw_16_run P buf w Hr Hu Hw ltac:(lia)) as E.
    rewrite push_converted_value in E
      by (cbn [entered dec]; first [exact Hpos | apply Hs; [lia | exact Hsz]]).
    rewrite Hrun in E. injection E as _ ->. cbn [entered trace dec] in Ht.
    rewrite <- app_assoc in Ht. apply app_inv_head in Ht.
    now injection Ht as <-.
  - destruct (chain_raw_24_converts P buf w Hr Hu Hw ltac:(lia))
      as (out & w' & Hrun & Ht & Hdata).
    exists out. eexists. rewrite Hrun. cbn [fst snd].
    rewrite (new_events_app _ _ _ Ht).
    split; [reflexivity|]. split; [reflexivity|]. split; [reflexivity|].
    split; [intros H16; rewrite Hw in H16; discriminate|].
    split; [intros _; exact Hdata|].
    intros _ Hpos Hsz. rewrite Hw. change (24 / 8) with 3. cbv zeta.
    pose proof (chain_raw_24_run P buf w Hr Hu Hw ltac:(lia)) as E.
    assert (E24 : reorder24_loop (Z.to_nat (buf_size buf / 12)) (buf_data buf) 0
                  = Some (reorder24_spec (buf_data buf)))
      by apply reorder24_loop_whole.
    rewrite E24 in E.
    rewrite push_converted_value in E
      by (cbn [entered dec]; first [exact Hpos | apply Hs; [lia | exact Hsz]]).
    rewrite Hrun in E. injection E as _ ->. cbn [entered trace dec] in Ht.
    rewrite <- app_assoc in Ht. apply app_inv_head in Ht.
    now injection Ht as <-.
  - destruct (chain_raw_20_converts P buf w Hr Hu Hw ltac:(lia) Hsz Ha)
      as (out & w' & Hrun & Ht & _).
    exists out. eexists. rewrite Hrun. cbn [fst snd].
    rewrite (new_events_app _ _ _ Ht).
    split; [reflexivity|]. split; [reflexivity|]. split; [reflexivity|].
    split; [intros H16; rewrite Hw in H16; discriminate|].
    split; [intros H24; rewrite Hw in H24; discriminate|].
    intros [H|H]; rewrite Hw in H; discriminate.
Qed.

Lemma converter_has_no_length_check_witness :
  ~ whole_frames (dec lpcm16) 3 /\
  exists out r,
    fst (gst_dvdlpcmdec_chain_raw accepting three_bytes lpcm16) = Some r /\
    pushed (new_events lpcm16
              (snd (gst_dvdlpcmdec_chain_raw accepting three_bytes lpcm16)))
      = [out] /\
    buf_data out = [0xD0; 0xD1; 0xD2] /\
    buf_duration out = 0.
Proof.
  split; [vm_compute; discriminate|].
  destruct (converter_has_no_length_check accepting three_bytes lpcm16
              ltac:(vm_compute; discriminate) eq_refl
              ltac:(vm_compute; split; discriminate)
              (or_introl eq_refl))
    as (out & r & Hrun & Hp & _ & Hd & _ & Hdur).
  exists out, r. split; [exact Hrun|]. split; [exact Hp|].
  split; [exact (Hd eq_refl)|].
  exact (Hdur (or_introl eq_refl) ltac:(vm_compute; reflexivity)
           ltac:(vm_compute; reflexivity)).
Defined.

(** C9, as stated, fails: three bytes are not a whole frame of two 16-bit
    channels, and the converter returns GST_FLOW_OK, posts no error and
    pushes them downstream. *)
Lemma partial_frame_is_pushed :
  ~ whole_frames (dec lpcm16) 3 /\
  (let run := gst_dvdlpcmdec_chain_raw accepting three_bytes lpcm16 in
   fst run = Some GST_FLOW_OK /\
   element_errors (new_events lpcm16 (snd run)) = [] /\
   map buf_data (pushed (new_events lpcm16 (snd run))) = [[0xD0; 0xD1; 0xD2]]).
Proof.
  split; [vm_compute; discriminate|].
  vm_compute. repeat split.
Qed.

(** ** The three ways "see if we have a new header" ends *)

Lemma negotiate_same (P : Pipeline) (hdr : Z) (w : World) :
  hdr = header (dec w) ->
  negotiate_header P hdr w = (Some true, w).
Proof.
  intros ->. unfold negotiate_header. run_monad.
  rewrite Z.eqb_refl. cbn. now destruct w.
Qed.

Lemma negotiate_accepted (P : Pipeline) (hdr : Z) (w : World) :
  hdr <> header (dec w) ->
  let d := parse_header (dec w) hdr in
  pad_set_caps P (trace w) (src_caps_of d) = true ->
  negotiate_header P hdr w =
  (Some true,
   mkWorld (set_header hdr (set_srcpad_caps (Some (src_caps_of d)) d))
           (trace w ++ [EvSetCaps (src_caps_of d)])).
Proof.
  intros Hne d Hok. unfold negotiate_header. run_monad.
  apply Z.eqb_neq in Hne. rewrite Hne. cbn [negb].
  fold d. now rewrite Hok.
Qed.

Lemma negotiate_refused (P : Pipeline) (hdr : Z) (w : World) :
  hdr <> header (dec w) ->
  let d := parse_header (dec w) hdr in
  pad_set_caps P (trace w) (src_caps_of d) = false ->
  negotiate_header P hdr w =
  (Some false, mkWorld d (trace w ++ [EvSetCaps (src_caps_of d)])).
Proof.
  intros Hne d Hok. unfold negotiate_header. run_monad.
  apply Z.eqb_neq in Hne. rewrite Hne. cbn [negb].
  fold d. now rewrite Hok.
Qed.

(** The events of the negotiation: none for the stored header word, one
    proposal of caps for another one. *)
Lemma negotiate_trace (P : Pipeline) (hdr : Z) (w : World) :
  exists ok,
    fst (negotiate_header P hdr w) = Some ok /\
    trace (snd (negotiate_header P hdr w)) =
      trace w ++ (if hdr =? header (dec w) then []
                  else [EvSetCaps (src_caps_of (parse_header (dec w) hdr))]) /\
    (ok = false <->
     hdr <> header (dec w) /\
     pad_set_caps P (trace w) (src_caps_of (parse_header (dec w) hdr)) = false) /\
    (ok = true -> header (dec (snd (negotiate_header P hdr w))) = hdr) /\
    format_of (dec (snd (negotiate_header P hdr w))) =
      (if hdr =? header (dec w) then format_of (dec w)
       else format_of (parse_header (dec w) hdr)).
Proof.
  destruct (Z.eqb_spec hdr (header (dec w))) as [E|Hne].
  - rewrite (negotiate_same P hdr w E). exists true. cbn [fst snd].
    rewrite app_nil_r. repeat split; try easy; try (intros [? _]; contradiction).
  - destruct (pad_set_caps P (trace w) (src_caps_of (parse_header (dec w) hdr))) eqn:Hok.
    + rewrite (negotiate_accepted P hdr w Hne Hok). exists true. cbn [fst snd trace].
      repeat split; try easy; try (intros [_ ?]; discriminate).
    + rewrite (negotiate_refused P hdr w Hne Hok). exists false. cbn [fst snd trace].
      repeat split; try easy.
Qed.

(** ** The framer *)

(** A sub-buffer that lies within the chunk is created and converted. *)
Lemma chain_sub_in_range (P : Pipeline) (buf : GstBuffer) (off len ts : Z) (w : World) :
  0 <= u32 off -> 0 <= u32 len -> u32 off + u32 len <= buf_size buf ->
  chain_sub P buf off len ts w =
  gst_dvdlpcmdec_chain_raw P
    (mkBuffer (take (Z.to_nat (u32 len)) (drop (Z.to_nat (u32 off)) (buf_data buf)))
              ts GST_CLOCK_TIME_NONE None) w.
Proof.
  intros Ho Hl Hr. unfold chain_sub, gst_buffer_create_sub.
  destruct (Z.leb_spec (u32 off + u32 len) (buf_size buf)); [|lia].
  reflexivity.
Qed.

(** Whatever the range, a sub-buffer proposes no caps and leaves the
    stored header word and the format as they are. *)
Lemma chain_sub_trace (P : Pipeline) (buf : GstBuffer) (off len ts : Z) (w : World) :
  exists evs,
    trace (snd (chain_sub P buf off len ts w)) = trace w ++ evs /\
    set_caps_calls evs = [] /\
    header (dec (snd (chain_sub P buf off len ts w))) = header (dec w) /\
    format_of (dec (snd (chain_sub P buf off len ts w))) = format_of (dec w).
Proof.
  unfold chain_sub, bind, lift.
  destruct (gst_buffer_create_sub buf (u32 off) (u32 len)) as [sub|].
  - destruct (chain_raw_trace P (set_timestamp ts sub) w) as (evs & Ht & Hc & _).
    exists (EvChainRaw (set_timestamp ts sub) :: evs). repeat split.
    + exact Ht.
    + exact Hc.
    + apply chain_raw_header.
    + apply chain_raw_format.
  - exists []. cbn [snd]. now rewrite app_nil_r.
Qed.

(** So does the whole part after the header. *)
Lemma forward_trace (P : Pipeline) (buf : GstBuffer) (fa : Z) (w : World) :
  exists evs,
    trace (snd (forward_sub_buffers P buf fa w)) = trace w ++ evs /\
    set_caps_calls evs = [] /\
    header (dec (snd (forward_sub_buffers P buf fa w))) = header (dec w) /\
    format_of (dec (snd (forward_sub_buffers P buf fa w))) = format_of (dec w).
Proof.
  unfold forward_sub_buffers.
  destruct (fa >? 4); [|apply chain_sub_trace].
  cbv zeta. unfold bind.
  destruct (s32 (fa - 4) >? 0).
  - destruct (chain_sub_trace P buf 5 (s32 (fa - 4)) GST_CLOCK_TIME_NONE w)
      as (evs1 & Ht1 & Hc1 & Hh1 & Hf1).
    destruct (chain_sub P buf 5 (s32 (fa - 4)) GST_CLOCK_TIME_NONE w)
      as [[r|] w1]; cbn [snd] in *.
    + destruct (negb (flow_is_ok r)).
      * exists evs1. cbn [ret snd]. auto.
      * match goal with
        | |- context [chain_sub P buf ?o ?l ?t w1] =>
            destruct (chain_sub_trace P buf o l t w1)
              as (evs2 & Ht2 & Hc2 & Hh2 & Hf2)
        end.
        exists (evs1 ++ evs2).
        rewrite Ht2, Ht1, Hh2, Hh1, Hf2, Hf1, set_caps_calls_app, Hc1, Hc2.
        now rewrite app_assoc.
    + exists evs1. auto.
  - cbn [ret flow_is_ok negb]. apply chain_sub_trace.
Qed.

(** One chunk [buf] of at least the 5 bytes of the header, handed to the
    framer in the world [w]. *)
Section Framer.

Context (P : Pipeline) (buf : GstBuffer) (w : World).
Context (d0 d1 d2 d3 d4 : Z) (payload : list Z).
Hypothesis chunk_bytes : buf_data buf = d0 :: d1 :: d2 :: d3 :: d4 :: payload.

Lemma chunk_size :
  buf_size buf = 5 + Z.of_nat (length payload).
Proof.
  unfold buf_size. rewrite chunk_bytes. cbn [length]. lia.
Qed.

(** The chunk up to the end of the negotiation. *)
Lemma chain_dvd_header :
  gst_dvdlpcmdec_chain_dvd P buf w =
  (negotiated <~ negotiate_header P (header_of d2 d3 d4);;
   if negb negotiated then ret GST_FLOW_ERROR
   else forward_sub_buffers P buf (first_access_of d0 d1)) w.
Proof.
  unfold gst_dvdlpcmdec_chain_dvd. rewrite chunk_bytes. reflexivity.
Qed.

(** A refused negotiation ends the chunk. *)
Lemma chain_dvd_refused (w0 : World) :
  negotiate_header P (header_of d2 d3 d4) w = (Some false, w0) ->
  gst_dvdlpcmdec_chain_dvd P buf w = (Some GST_FLOW_ERROR, w0).
Proof.
  intros Hn. rewrite chain_dvd_header.
  unfold bind at 1. rewrite Hn. reflexivity.
Qed.

(** first_access <= 4: one sub-buffer, without timestamp. *)
Lemma chain_dvd_single (w0 : World) :
  buffer_wf buf ->
  first_access_of d0 d1 <= 4 ->
  negotiate_header P (header_of d2 d3 d4) w = (Some true, w0) ->
  gst_dvdlpcmdec_chain_dvd P buf w =
  gst_dvdlpcmdec_chain_raw P
    (mkBuffer payload GST_CLOCK_TIME_NONE GST_CLOCK_TIME_NONE None) w0.
Proof.
  intros [_ Hsz] Hfa Hn. pose proof chunk_bytes as E. rewrite chain_dvd_header.
  unfold bind at 1. rewrite Hn. cbn [negb]. unfold forward_sub_buffers.
  destruct (Z.gtb_spec (first_access_of d0 d1) 4); [lia|].
  pose proof chunk_size as Hs.
  assert (Hu : u32 (s32 (u32 (buf_size buf - 5))) = Z.of_nat (length payload)).
  { rewrite u32_s32. unfold u32. rewrite Z.mod_mod by lia.
    rewrite Z.mod_small; lia. }
  rewrite chain_sub_in_range; rewrite ?Hu; change (u32 5) with 5; try lia.
  rewrite E. change (Z.to_nat 5) with 5%nat. cbn [drop]. rewrite drop_0.
  rewrite Nat2Z.id, firstn_all. reflexivity.
Qed.

(** first_access > 4 and within the chunk: the bytes before the access
    unit without timestamp, then, when the converter returned
    GST_FLOW_OK, the rest with the timestamp of the chunk. *)
Lemma chain_dvd_double (w0 : World) :
  buffer_wf buf ->
  4 < first_access_of d0 d1 ->
  first_access_of d0 d1 - 4 <= Z.of_nat (length payload) ->
  negotiate_header P (header_of d2 d3 d4) w = (Some true, w0) ->
  let n := Z.to_nat (first_access_of d0 d1 - 4) in
  let first :=
    gst_dvdlpcmdec_chain_raw P
      (mkBuffer (take n payload) GST_CLOCK_TIME_NONE GST_CLOCK_TIME_NONE None) w0 in
  gst_dvdlpcmdec_chain_dvd P buf w =
  match fst first with
  | Some GST_FLOW_OK =>
      gst_dvdlpcmdec_chain_raw P
        (mkBuffer (drop n payload) (buf_timestamp buf) GST_CLOCK_TIME_NONE None)
        (snd first)
  | _ => first
  end.
Proof.
  intros [Hb Hsz] Hfa Hin Hn n first. pose proof chunk_bytes as E.
  rewrite chain_dvd_header.
  unfold bind at 1. rewrite Hn. cbn [negb]. unfold forward_sub_buffers.
  destruct (Z.gtb_spec (first_access_of d0 d1) 4); [|lia].
  pose proof chunk_size as Hs.
  assert (Hr : 0 <= first_access_of d0 d1 < 65536).
  { rewrite E in Hb. inversion_clear Hb as [|? ? H0 Hb'].
    inversion_clear Hb' as [|? ? H1 _]. now apply first_access_range. }
  cbv zeta.
  rewrite (s32_small (first_access_of d0 d1 - 4)) by lia.
  destruct (Z.gtb_spec (first_access_of d0 d1 - 4) 0); [|lia].
  unfold bind at 1.
  rewrite chain_sub_in_range;
    rewrite ?(u32_small (first_access_of d0 d1 - 4)) by lia;
    change (u32 5) with 5; try lia.
  rewrite E. change (Z.to_nat 5) with 5%nat. cbn [drop]. rewrite drop_0.
  fold n. subst first. cbv zeta.
  destruct (gst_dvdlpcmdec_chain_raw P _ w0) as [[r|] w1]; cbn [fst snd];
    [|reflexivity].
  destruct r; cbn [flow_is_ok negb]; try reflexivity.
  rewrite (s32_small (5 + (first_access_of d0 d1 - 4))) by lia.
  assert (Hu : u32 (s32 (u32 (buf_size buf - (5 + (first_access_of d0 d1 - 4)))))
               = Z.of_nat (length payload) - (first_access_of d0 d1 - 4)).
  { rewrite u32_s32. unfold u32. rewrite Z.mod_mod by lia.
    rewrite Z.mod_small; lia. }
  rewrite chain_sub_in_range; rewrite ?Hu;
    rewrite ?(u32_small (5 + (first_access_of d0 d1 - 4))) by lia; try lia.
  rewrite ?E.
  replace (Z.to_nat (5 + (first_access_of d0 d1 - 4))) with (5 + n)%nat by lia.
  cbn [Nat.add drop].
  rewrite take_ge; [reflexivity|].
  rewrite length_drop. lia.
Qed.

(** The whole chunk: the events of the negotiation, then events that
    propose no caps. *)
Lemma chain_dvd_trace :
  let hdr := header_of d2 d3 d4 in
  exists evs,
    trace (snd (gst_dvdlpcmdec_chain_dvd P buf w)) =
      trace w ++ (if hdr =? header (dec w) then []
                  else [EvSetCaps (src_caps_of (parse_header (dec w) hdr))]) ++ evs /\
    set_caps_calls evs = [] /\
    (fst (negotiate_header P hdr w) = Some true ->
     header (dec (snd (gst_dvdlpcmdec_chain_dvd P buf w))) = hdr) /\
    format_of (dec (snd (gst_dvdlpcmdec_chain_dvd P buf w))) =
      (if hdr =? header (dec w) then format_of (dec w)
       else format_of (parse_header (dec w) hdr)).
Proof.
  intros hdr. rewrite chain_dvd_header. fold hdr.
  destruct (negotiate_trace P hdr w) as (ok & Hok & Ht & _ & Hh & Hf).
  unfold bind.
  destruct (negotiate_header P hdr w) as [o w0]. cbn [fst snd] in *. subst o.
  destruct ok; cbn [negb].
  - destruct (forward_trace P buf (first_access_of d0 d1) w0)
      as (evs & Ht' & Hc & Hh' & Hf').
    exists evs. rewrite Ht', Ht, Hh', Hf', <- app_assoc. auto.
  - exists []. cbn [ret snd]. rewrite app_nil_r.
    repeat split; [exact Ht|discriminate|exact Hf].
Qed.

End Framer.

(** ** The claims about the framer *)

(** C5 (amended).  A chunk whose first_access is greater than 4 and lies
    within the chunk, and whose header word is the stored one or is
    accepted by the source pad: the framer hands the converter first the
    first_access - 4 bytes after the 5-byte header, without timestamp;
    when the converter returns GST_FLOW_OK for them it then hands it the
    remaining bytes with the timestamp of the chunk, and these two
    sub-buffers are all it hands over, in this order; when the converter
    returns anything else, the first sub-buffer is the only one and its
    result is the result of the chunk. *)
Theorem framer_two_subbuffers (P : Pipeline) (buf : GstBuffer) (w : World)
    (d0 d1 d2 d3 d4 : Z) (payload : list Z) :
  buffer_wf buf ->
  buf_data buf = d0 :: d1 :: d2 :: d3 :: d4 :: payload ->
  4 < first_access_of d0 d1 ->
  first_access_of d0 d1 - 4 <= Z.of_nat (length payload) ->
  let hdr := header_of d2 d3 d4 in
  hdr = header (dec w) \/
    pad_set_caps P (trace w) (src_caps_of (parse_header (dec w) hdr)) = true ->
  let n := Z.to_nat (first_access_of d0 d1 - 4) in
  let sub1 := mkBuffer (take n payload) GST_CLOCK_TIME_NONE GST_CLOCK_TIME_NONE None in
  let sub2 := mkBuffer (drop n payload) (buf_timestamp buf) GST_CLOCK_TIME_NONE None in
  let first := gst_dvdlpcmdec_chain_raw P sub1 (snd (negotiate_header P hdr w)) in
  let run := gst_dvdlpcmdec_chain_dvd P buf w in
  (fst first = Some GST_FLOW_OK ->
     run = gst_dvdlpcmdec_chain_raw P sub2 (snd first) /\
     chain_raw_calls (new_events w (snd run)) = [sub1; sub2]) /\
  (fst first <> Some GST_FLOW_OK ->
     run = first /\
     chain_raw_calls (new_events w (snd run)) = [sub1]).
Proof.
  intros Hwf E Hfa Hin hdr Hneg n sub1 sub2 first run.
  destruct (negotiate_trace P hdr w) as (ok & Hok & Ht & Hfalse & _).
  assert (ok = true) as ->.
  { destruct ok; [reflexivity|].
    destruct (proj1 Hfalse eq_refl) as [Hne Hrej].
    destruct Hneg as [?|Hacc]; [contradiction|congruence]. }
  assert (Hn : negotiate_header P hdr w = (Some true, snd (negotiate_header P hdr w))).
  { destruct (negotiate_header P hdr w). cbn [fst snd] in *. now subst. }
  pose proof (chain_dvd_double P buf w d0 d1 d2 d3 d4 payload E _ Hwf Hfa Hin Hn) as Hrun.
  cbv zeta in Hrun. fold n sub1 first sub2 run in Hrun.
  destruct (chain_raw_trace P sub1 (snd (negotiate_header P hdr w)))
    as (evs1 & Ht1 & _ & Hc1). fold first in Ht1.
  assert (Hnc : chain_raw_calls
                  (if hdr =? header (dec w) then []
                   else [EvSetCaps (src_caps_of (parse_header (dec w) hdr))]) = []).
  { now destruct (hdr =? header (dec w)). }
  split; intros Hfirst.
  - rewrite Hfirst in Hrun. split; [exact Hrun|].
    destruct (chain_raw_trace P sub2 (snd first)) as (evs2 & Ht2 & _ & Hc2).
    rewrite <- Hrun in Ht2.
    rewrite (new_events_app w (snd run) _
               ltac:(rewrite Ht2, Ht1, Ht, <- !app_assoc; reflexivity)).
    rewrite !chain_raw_calls_app, Hnc. cbn [app].
    change (chain_raw_calls (EvChainRaw sub1 :: evs1)) with (sub1 :: chain_raw_calls evs1).
    change (chain_raw_calls (EvChainRaw sub2 :: evs2)) with (sub2 :: chain_raw_calls evs2).
    now rewrite Hc1, Hc2.
  - assert (Hr : run = first).
    { rewrite Hrun. destruct (fst first) as [[]|]; try reflexivity. congruence. }
    split; [exact Hr|].
    rewrite Hr.
    rewrite (new_events_app w (snd first) _
               ltac:(rewrite Ht1, Ht, <- !app_assoc; reflexivity)).
    rewrite chain_raw_calls_app, Hnc. cbn [app].
    change (chain_raw_calls (EvChainRaw sub1 :: evs1)) with (sub1 :: chain_raw_calls evs1).
    now rewrite Hc1.
Qed.

Lemma framer_two_subbuffers_witness :
  chain_raw_calls
    (new_events fresh_world
       (snd (gst_dvdlpcmdec_chain_dvd accepting chunk_fa7 fresh_world)))
  = [mkBuffer [0xA1; 0xA2; 0xA3] GST_CLOCK_TIME_NONE GST_CLOCK_TIME_NONE None;
     mkBuffer [0xB0; 0xB1; 0xB2; 0xB3; 0xB4; 0xB5; 0xB6; 0xB7; 0xB8; 0xB9; 0xBA; 0xBB]
              1000 GST_CLOCK_TIME_NONE None].
Proof.
  assert (Hwf : buffer_wf chunk_fa7).
  { split; [repeat constructor; lia | vm_compute; reflexivity]. }
  pose proof (framer_two_subbuffers accepting chunk_fa7 fresh_world
                0 7 0x00 0x80 0x01 payload15 Hwf eq_refl
                ltac:(vm_compute; reflexivity)
                ltac:(vm_compute; discriminate)
                (or_intror eq_refl)) as H.
  cbv zeta in H. destruct H as [H _].
  exact (proj2 (H ltac:(vm_compute; reflexivity))).
Defined.

(** C5, as stated, fails: on a source pad that is not linked the
    converter returns GST_FLOW_NOT_LINKED for the first sub-buffer and the
    second one is never handed over; on a source pad that refuses the
    caps nothing is handed over at all. *)
Lemma framer_not_always_two :
  first_access_of 0 7 > 4 /\
  (let evs := new_events fresh_world
                (snd (gst_dvdlpcmdec_chain_dvd unlinked chunk_fa7 fresh_world)) in
   fst (gst_dvdlpcmdec_chain_dvd unlinked chunk_fa7 fresh_world)
     = Some GST_FLOW_NOT_LINKED /\
   chain_raw_calls evs
     = [mkBuffer [0xA1; 0xA2; 0xA3] GST_CLOCK_TIME_NONE GST_CLOCK_TIME_NONE None] /\
   length (chain_raw_calls evs) <> 2%nat /\
   pushed evs = []) /\
  (let evs := new_events fresh_world
                (snd (gst_dvdlpcmdec_chain_dvd refusing chunk_fa7 fresh_world)) in
   chain_raw_calls evs = [] /\ pushed evs = []).
Proof.
  vm_compute. repeat split; discriminate.
Qed.

(** C6 (what the code does).  A chunk whose first_access is 4 takes the
    branch of the broken values 0..3: the framer hands the converter one
    sub-buffer, all the bytes after the 5-byte header, and this
    sub-buffer has no timestamp (GST_CLOCK_TIME_NONE) whatever the
    timestamp of the chunk is. *)
Theorem framer_first_access_4 (P : Pipeline) (buf : GstBuffer) (w : World)
    (d0 d1 d2 d3 d4 : Z) (payload : list Z) :
  buffer_wf buf ->
  buf_data buf = d0 :: d1 :: d2 :: d3 :: d4 :: payload ->
  first_access_of d0 d1 = 4 ->
  let hdr := header_of d2 d3 d4 in
  hdr = header (dec w) \/
    pad_set_caps P (trace w) (src_caps_of (parse_header (dec w) hdr)) = true ->
  let sub := mkBuffer payload GST_CLOCK_TIME_NONE GST_CLOCK_TIME_NONE None in
  let run := gst_dvdlpcmdec_chain_dvd P buf w in
  run = gst_dvdlpcmdec_chain_raw P sub (snd (negotiate_header P hdr w)) /\
  chain_raw_calls (new_events w (snd run)) = [sub].
Proof.
  intros Hwf E Hfa hdr Hneg sub run.
  destruct (negotiate_trace P hdr w) as (ok & Hok & Ht & Hfalse & _).
  assert (ok = true) as ->.
  { destruct ok; [reflexivity|].
    destruct (proj1 Hfalse eq_refl) as [Hne Hrej].
    destruct Hneg as [?|Hacc]; [contradiction|congruence]. }
  assert (Hn : negotiate_header P hdr w = (Some true, snd (negotiate_header P hdr w))).
  { destruct (negotiate_header P hdr w). cbn [fst snd] in *. now subst. }
  pose proof (chain_dvd_single P buf w d0 d1 d2 d3 d4 payload E _ Hwf
                ltac:(lia) Hn) as Hrun.
  fold sub run in Hrun. split; [exact Hrun|].
  destruct (chain_raw_trace P sub (snd (negotiate_header P hdr w)))
    as (evs1 & Ht1 & _ & Hc1).
  rewrite Hrun.
  rewrite (new_events_app w _ _ ltac:(rewrite Ht1, Ht, <- !app_assoc; reflexivity)).
  rewrite chain_raw_calls_app.
  change (chain_raw_calls (EvChainRaw sub :: evs1)) with (sub :: chain_raw_calls evs1).
  rewrite Hc1. now destruct (hdr =? header (dec w)).
Qed.

Lemma framer_first_access_4_witness :
  buf_timestamp chunk_fa4 = 1000 /\
  chain_raw_calls
    (new_events fresh_world
       (snd (gst_dvdlpcmdec_chain_dvd accepting chunk_fa4 fresh_world)))
  = [mkBuffer payload15 GST_CLOCK_TIME_NONE GST_CLOCK_TIME_NONE None].
Proof.
  split; [reflexivity|].
  assert (Hwf : buffer_wf chunk_fa4).
  { split; [repeat constructor; lia | vm_compute; reflexivity]. }
  exact (proj2 (framer_first_access_4 accepting chunk_fa4 fresh_world
                  0 4 0x00 0x80 0x01 payload15 Hwf eq_refl eq_refl
                  (or_intror eq_refl))).
Defined.






(** * More of the element

    Properties of the code around the claims: the bytes of the chunk
    header, the edges of the framer and of the converter, the timestamps
    over several buffers, the caps of the sink pad and the state
    change. *)

(** ** The header of a chunk, byte by byte *)

Lemma lor_shiftl_add (hi lo n : Z) :
  0 <= n -> 0 <= lo < 2 ^ n -> Z.lor (Z.shiftl hi n) lo = hi * 2 ^ n + lo.
Proof.
  intros Hn Hlo.
  assert (E : Z.land (Z.shiftl hi n) lo = 0).
  { apply Z.bits_inj'. intros m Hm. rewrite Z.land_spec, Z.bits_0.
    destruct (Z_lt_ge_dec m n).
    - now rewrite Z.shiftl_spec_low by lia.
    - rewrite (proj2 (Z.testbit_false lo m Hm)); [apply andb_false_r|].
      rewrite Z.div_small; [reflexivity|]. split; [lia|].
      apply Z.lt_le_trans with (2 ^ n); [lia|]. apply Z.pow_le_mono_r; lia. }
  rewrite <- Z.lxor_lor by exact E. rewrite <- Z.add_nocarry_lxor by exact E.
  now rewrite Z.shiftl_mul_pow2.
Qed.

Lemma header_of_sum (d2 d3 d4 : Z) :
  0 <= d3 < 256 -> 0 <= d4 < 256 ->
  header_of d2 d3 d4 = 65536 * d2 + 256 * d3 + d4.
Proof.
  intros H3 H4. unfold header_of.
  assert (E3 : Z.shiftl d3 8 = d3 * 256) by now rewrite Z.shiftl_mul_pow2.
  rewrite (lor_shiftl_add d2 (Z.shiftl d3 8) 16) by (rewrite ?E3; lia).
  replace (d2 * 2 ^ 16 + Z.shiftl d3 8) with (Z.shiftl (d2 * 256 + d3) 8)
    by (rewrite E3, Z.shiftl_mul_pow2 by lia; lia).
  rewrite lor_shiftl_add by lia. lia.
Qed.

Lemma first_access_of_sum (d0 d1 : Z) :
  0 <= d1 < 256 -> first_access_of d0 d1 = 256 * d0 + d1.
Proof.
  intros H1. unfold first_access_of. rewrite lor_shiftl_add by lia. lia.
Qed.

Lemma land_ones_mod (x : Z) (n : Z) (m : Z) :
  0 <= n -> m = Z.ones n -> Z.land x m = x mod 2 ^ n.
Proof. intros Hn ->. now apply Z.land_ones. Qed.

Lemma testbit_div (x n : Z) : 0 <= n -> Z.testbit x n = Z.odd (x / 2 ^ n).
Proof.
  intros Hn. rewrite <- Z.shiftr_div_pow2 by lia.
  rewrite <- Z.bit0_odd, Z.shiftr_spec by lia. reflexivity.
Qed.

(** X1. The five bytes in front of a chunk: first_access and the header
    word are big-endian numbers, and parse_header finds the emphasis and
    the mute flag in bits 7 and 6 of the third byte, the width in the
    two top bits of the fourth, the rate in its bit 4, the channels in
    its three low bits, and the dynamic range in the fifth byte. *)
Theorem chunk_header_by_bytes (dec0 : GstDvdLpcmDec) (d0 d1 d2 d3 d4 : Z) :
  0 <= d0 < 256 -> 0 <= d1 < 256 -> 0 <= d2 < 256 -> 0 <= d3 < 256 ->
  0 <= d4 < 256 ->
  let d := parse_header dec0 (header_of d2 d3 d4) in
  first_access_of d0 d1 = 256 * d0 + d1 /\
  header_of d2 d3 d4 = 65536 * d2 + 256 * d3 + d4 /\
  emphasis d = Z.testbit d2 7 /\
  mute d = Z.testbit d2 6 /\
  width d = (if d3 / 64 =? 2 then 24 else if d3 / 64 =? 1 then 20 else 16) /\
  out_width d = (if d3 / 64 =? 2 then 24 else if d3 / 64 =? 1 then 24 else 16) /\
  rate d = (if Z.testbit d3 4 then 96000 else 48000) /\
  channels d = d3 mod 8 + 1 /\
  dynamic_range d = d4.
Proof.
  intros H0 H1 H2 H3 H4 d.
  pose proof (header_of_sum d2 d3 d4 H3 H4) as Eh.
  assert (Ebit : forall k, 0 <= k ->
            negb (Z.land (header_of d2 d3 d4) (2 ^ k) =? 0)
            = Z.odd ((65536 * d2 + 256 * d3 + d4) / 2 ^ k)).
  { intros k Hk. rewrite land_pow2_testbit, testbit_div, Eh by lia. reflexivity. }
  assert (Esel : Z.land (header_of d2 d3 d4) 0xC000 = (d3 / 64) * 16384).
  { rewrite land_C000_selector, Z.shiftl_mul_pow2, Z.shiftr_div_pow2 by lia.
    rewrite (land_ones_mod _ 2 3) by (lia || reflexivity). rewrite Eh.
    change (2 ^ 14) with 16384. change (2 ^ 2) with 4.
    f_equal. Z.div_mod_to_equations. lia. }
  assert (Hsel : 0 <= d3 / 64 < 4) by (Z.div_mod_to_equations; lia).
  subst d. unfold parse_header. cbn [emphasis mute width out_width rate channels
    dynamic_range fst snd].
  split; [now apply first_access_of_sum|]. split; [exact Eh|].
  split.
  { change 0x800000 with (2 ^ 23). rewrite Ebit, testbit_div by lia.
    f_equal. change (2 ^ 23) with 8388608. change (2 ^ 7) with 128.
    Z.div_mod_to_equations. lia. }
  split.
  { change 0x400000 with (2 ^ 22). rewrite Ebit, testbit_div by lia.
    f_equal. change (2 ^ 22) with 4194304. change (2 ^ 6) with 64.
    Z.div_mod_to_equations. lia. }
  rewrite Esel.
  split.
  { assert (C : d3 / 64 = 0 \/ d3 / 64 = 1 \/ d3 / 64 = 2 \/ d3 / 64 = 3) by lia.
    destruct C as [-> | [-> | [-> | ->]]]; reflexivity. }
  split.
  { assert (C : d3 / 64 = 0 \/ d3 / 64 = 1 \/ d3 / 64 = 2 \/ d3 / 64 = 3) by lia.
    destruct C as [-> | [-> | [-> | ->]]]; reflexivity. }
  split.
  { change 0x1000 with (2 ^ 12). rewrite Ebit, testbit_div by lia.
    replace ((65536 * d2 + 256 * d3 + d4) / 2 ^ 12) with (d3 / 2 ^ 4 + 2 * (8 * d2)).
    - now rewrite Z.odd_add_mul_2.
    - change (2 ^ 12) with 4096. change (2 ^ 4) with 16.
      Z.div_mod_to_equations. lia. }
  split.
  { rewrite Z.shiftr_div_pow2, (land_ones_mod _ 3 7) by (lia || reflexivity).
    rewrite Eh. change (2 ^ 8) with 256. change (2 ^ 3) with 8.
    f_equal. Z.div_mod_to_equations. lia. }
  rewrite (land_ones_mod _ 8 0xff) by (lia || reflexivity).
  rewrite Eh. change (2 ^ 8) with 256. Z.div_mod_to_equations. lia.
Qed.

Lemma chunk_header_by_bytes_witness :
  let d := parse_header gst_dvdlpcm_reset (header_of 0x80 0x91 0xA5) in
  first_access_of 0x01 0x07 = 263 /\
  header_of 0x80 0x91 0xA5 = 0x8091A5 /\
  emphasis d = true /\ mute d = false /\ width d = 24 /\ out_width d = 24 /\
  rate d = 96000 /\ channels d = 2 /\ dynamic_range d = 0xA5.
Proof.
  exact (chunk_header_by_bytes gst_dvdlpcm_reset 0x01 0x07 0x80 0x91 0xA5
           ltac:(lia) ltac:(lia) ltac:(lia) ltac:(lia) ltac:(lia)).
Defined.

(** ** Header bits the parser does not look at *)




(** ** The edges of the framer *)

Lemma chain_dvd_too_short (P : Pipeline) (buf : GstBuffer) (w : World) :
  (length (buf_data buf) < 5)%nat ->
  gst_dvdlpcmdec_chain_dvd P buf w = (None, w).
Proof.
  intros Hlen. unfold gst_dvdlpcmdec_chain_dvd, bind, lift, load.
  destruct (buf_data buf) as [ | ? [ | ? [ | ? [ | ? [ | ? l ] ] ] ] ];
    cbn in Hlen |- *; try reflexivity; lia.
Qed.

(** X3. The framer reads the five header bytes without looking at the
    size of the chunk: with fewer than five bytes it reads outside the
    buffer, before anything is negotiated, converted or stored. *)
Theorem framer_reads_header_unchecked (P : Pipeline) (buf : GstBuffer) (w : World) :
  buf_size buf < 5 ->
  let run := gst_dvdlpcmdec_chain_dvd P buf w in
  fst run = None /\ new_events w (snd run) = [] /\ dec (snd run) = dec w.
Proof.
  intros Hsz run. subst run.
  rewrite chain_dvd_too_short by (unfold buf_size in Hsz; lia).
  cbn [fst snd]. repeat split.
  apply new_events_app. now rewrite app_nil_r.
Qed.

Lemma framer_reads_header_unchecked_witness :
  fst (gst_dvdlpcmdec_chain_dvd accepting (chunk [0; 4; 0x00; 0x80] 1000) fresh_world)
  = None.
Proof.
  refine (proj1 (framer_reads_header_unchecked accepting
                   (chunk [0; 4; 0x00; 0x80] 1000) fresh_world _)).
  vm_compute. reflexivity.
Defined.

(** X4. A first_access of 0 to 4: whatever its value and whatever the
    timestamp of the chunk, the framer negotiates the header and then
    hands the converter one sub-buffer, the whole payload, without
    timestamp. *)
Theorem framer_small_first_access (P : Pipeline) (buf : GstBuffer) (w : World)
    (d0 d1 d2 d3 d4 : Z) (payload : list Z) :
  buffer_wf buf ->
  buf_data buf = d0 :: d1 :: d2 :: d3 :: d4 :: payload ->
  first_access_of d0 d1 <= 4 ->
  gst_dvdlpcmdec_chain_dvd P buf w =
  (negotiated <~ negotiate_header P (header_of d2 d3 d4);;
   if negb negotiated then ret GST_FLOW_ERROR
   else gst_dvdlpcmdec_chain_raw P
          (mkBuffer payload GST_CLOCK_TIME_NONE GST_CLOCK_TIME_NONE None)) w.
Proof.
  intros Hwf E Hfa.
  destruct (negotiate_header P (header_of d2 d3 d4) w) as [[[|]|] w0] eqn:Hn.
  - rewrite (chain_dvd_single P buf w d0 d1 d2 d3 d4 payload E w0 Hwf Hfa Hn).
    unfold bind. now rewrite Hn.
  - rewrite (chain_dvd_refused P buf w d0 d1 d2 d3 d4 payload E w0 Hn).
    unfold bind. now rewrite Hn.
  - rewrite (chain_dvd_header P buf w d0 d1 d2 d3 d4 payload E).
    unfold bind. now rewrite Hn.
Qed.

Lemma framer_small_first_access_witness :
  chain_raw_calls
    (new_events fresh_world
       (snd (gst_dvdlpcmdec_chain_dvd accepting
               (chunk ([0; 2; 0x00; 0x80; 0x01] ++ payload15) 1000) fresh_world)))
  = [mkBuffer payload15 GST_CLOCK_TIME_NONE GST_CLOCK_TIME_NONE None].
Proof.
  rewrite (framer_small_first_access accepting
             (chunk ([0; 2; 0x00; 0x80; 0x01] ++ payload15) 1000) fresh_world
             0 2 0x00 0x80 0x01 payload15).
  - vm_compute. reflexivity.
  - split; [|vm_compute; reflexivity]. repeat constructor; lia.
  - reflexivity.
  - vm_compute. discriminate.
Defined.

(** X5. A first_access that points behind the end of the chunk is not
    checked either: once the header is negotiated, the first sub-buffer
    cannot be created, gst_buffer_create_sub yields NULL and the framer
    writes a timestamp into it. The converter is not reached and nothing
    is pushed, but the new header word is already stored. *)
Theorem framer_first_access_unchecked (P : Pipeline) (buf : GstBuffer) (w : World)
    (d0 d1 d2 d3 d4 : Z) (payload : list Z) :
  buffer_wf buf ->
  buf_data buf = d0 :: d1 :: d2 :: d3 :: d4 :: payload ->
  Z.of_nat (length payload) < first_access_of d0 d1 - 4 ->
  let hdr := header_of d2 d3 d4 in
  hdr = header (dec w) \/
    pad_set_caps P (trace w) (src_caps_of (parse_header (dec w) hdr)) = true ->
  let run := gst_dvdlpcmdec_chain_dvd P buf w in
  let evs := new_events w (snd run) in
  fst run = None /\
  chain_raw_calls evs = [] /\
  pushed evs = [] /\
  header (dec (snd run)) = hdr.
Proof.
  intros [Hb Hsz] E Hfa hdr Hneg run evs.
  assert (Hn : exists w0 ne,
             negotiate_header P hdr w = (Some true, w0) /\
             trace w0 = trace w ++ ne /\ chain_raw_calls ne = [] /\ pushed ne = [] /\
             header (dec w0) = hdr).
  { destruct (Z.eq_dec hdr (header (dec w))) as [Heq|Hne].
    - exists w, []. rewrite negotiate_same by exact Heq. rewrite app_nil_r. auto.
    - destruct Hneg as [Heq|Hacc]; [contradiction|].
      pose proof (negotiate_accepted P hdr w Hne Hacc) as H.
      eexists _, _. split; [exact H|]. cbn [trace dec]. auto. }
  destruct Hn as (w0 & ne & Hn & Ht & Hc & Hp & Hh).
  assert (Hrun : run = (None, w0)).
  { subst run. rewrite (chain_dvd_header P buf w d0 d1 d2 d3 d4 payload E).
    fold hdr. unfold bind at 1. rewrite Hn. cbn [negb].
    unfold forward_sub_buffers.
    assert (Hr : 0 <= first_access_of d0 d1 < 65536).
    { rewrite E in Hb. inversion_clear Hb as [|? ? H0 Hb'].
      inversion_clear Hb' as [|? ? H1 _]. now apply first_access_range. }
    destruct (Z.gtb_spec (first_access_of d0 d1) 4); [|lia].
    cbv zeta. rewrite (s32_small (first_access_of d0 d1 - 4)) by lia.
    destruct (Z.gtb_spec (first_access_of d0 d1 - 4) 0); [|lia].
    unfold bind at 1. unfold chain_sub, gst_buffer_create_sub.
    rewrite (u32_small (first_access_of d0 d1 - 4)) by lia. change (u32 5) with 5.
    pose proof (chunk_size buf d0 d1 d2 d3 d4 payload E) as Hs.
    destruct (Z.leb_spec (5 + (first_access_of d0 d1 - 4)) (buf_size buf)); [lia|].
    reflexivity. }
  subst evs. rewrite Hrun. cbn [fst snd].
  rewrite (new_events_app w w0 ne Ht). auto.
Qed.

Lemma framer_first_access_unchecked_witness :
  fst (gst_dvdlpcmdec_chain_dvd accepting
         (chunk ([0; 20; 0x00; 0x80; 0x01] ++ payload15) 1000) fresh_world)
  = None.
Proof.
  refine (proj1 (framer_first_access_unchecked accepting
                   (chunk ([0; 20; 0x00; 0x80; 0x01] ++ payload15) 1000)
                   fresh_world 0 20 0x00 0x80 0x01 payload15 _ eq_refl _ _)).
  - split; [|vm_compute; reflexivity]. repeat constructor; lia.
  - vm_compute. reflexivity.
  - right. reflexivity.
Defined.

(** ** The converter: what it returns when it does not push *)

Lemma pushed_app (a b : list Event) : pushed (a ++ b) = pushed a ++ pushed b.
Proof. apply omap_app. Qed.

Lemma element_errors_app (a b : list Event) :
  element_errors (a ++ b) = element_errors a ++ element_errors b.
Proof. apply omap_app. Qed.

Lemma chain_raw_not_negotiated (P : Pipeline) (buf : GstBuffer) (w : World) :
  rate (dec w) = 0 ->
  gst_dvdlpcmdec_chain_raw P buf w =
  (Some GST_FLOW_NOT_NEGOTIATED,
   mkWorld (dec w) (trace w ++ [EvChainRaw buf; EvElementError STREAM_FORMAT])).
Proof.
  intros Hr. unfold gst_dvdlpcmdec_chain_raw. run_monad.
  rewrite Hr. cbn [Z.eqb fst snd dec trace]. now rewrite <- app_assoc.
Qed.

(** X6. The four ways out of the converter that push nothing, in the
    order the code tests for them: no rate yet, source pad not usable, a
    width other than 16, 20 and 24, and, on the 20-bit path, an
    allocation that fails, whose result is passed on. Each leaves the
    element as it was; a pad that is not usable is the only one that
    posts no error. *)
Theorem chain_raw_refusals (P : Pipeline) (buf : GstBuffer) (w : World) :
  let run := gst_dvdlpcmdec_chain_raw P buf w in
  let asked := u32 (buf_size buf * 8) / 20 * 3 in
  (rate (dec w) = 0 ->
   run = (Some GST_FLOW_NOT_NEGOTIATED,
          mkWorld (dec w) (trace w ++ [EvChainRaw buf; EvElementError STREAM_FORMAT]))) /\
  (rate (dec w) <> 0 ->
   pad_is_usable P (trace (entered buf w)) = false ->
   run = (Some GST_FLOW_NOT_LINKED, entered buf w)) /\
  (rate (dec w) <> 0 ->
   pad_is_usable P (trace (entered buf w)) = true ->
   width (dec w) <> 16 -> width (dec w) <> 20 -> width (dec w) <> 24 ->
   run = (Some GST_FLOW_NOT_NEGOTIATED,
          mkWorld (dec w)
            (trace w ++ [EvChainRaw buf; EvElementError STREAM_WRONG_TYPE]))) /\
  (rate (dec w) <> 0 ->
   pad_is_usable P (trace (entered buf w)) = true ->
   width (dec w) = 20 ->
   pad_alloc_buffer P (trace (entered buf w)) asked <> GST_FLOW_OK ->
   run = (Some (pad_alloc_buffer P (trace (entered buf w)) asked),
          mkWorld (dec w)
            (trace w ++ [EvChainRaw buf; EvAllocBuffer asked;
                         EvElementError RESOURCE_FAILED]))).
Proof.
  intros run asked. subst run.
  split; [apply chain_raw_not_negotiated|].
  split; [|split].
  - intros Hr Hu. unfold gst_dvdlpcmdec_chain_raw, entered in *. run_monad.
    apply Z.eqb_neq in Hr. rewrite Hr. cbn [fst snd dec trace] in *.
    rewrite Hu. reflexivity.
  - intros Hr Hu H16 H20 H24. unfold gst_dvdlpcmdec_chain_raw, entered in *.
    run_monad. apply Z.eqb_neq in Hr, H16, H20, H24.
    rewrite Hr. cbn [fst snd dec trace] in *.
    rewrite Hu, H16, H20, H24. cbn [negb fst snd dec trace].
    now rewrite <- app_assoc.
  - intros Hr Hu H20 Ha. unfold gst_dvdlpcmdec_chain_raw, entered in *.
    run_monad. apply Z.eqb_neq in Hr.
    rewrite Hr. cbn [fst snd dec trace] in *.
    rewrite Hu, H20. cbn [negb Z.eqb Pos.eqb fst snd dec trace].
    fold asked.
    destruct (pad_alloc_buffer P (trace w ++ [EvChainRaw buf]) asked) eqn:Ea;
      try contradiction; cbn [flow_is_ok negb fst snd dec trace];
      rewrite <- !app_assoc; reflexivity.
Qed.

Lemma chain_raw_refusals_witness :
  gst_dvdlpcmdec_chain_raw unlinked three_bytes lpcm16
  = (Some GST_FLOW_NOT_LINKED, entered three_bytes lpcm16).
Proof.
  refine (proj1 (proj2 (chain_raw_refusals unlinked three_bytes lpcm16)) _ _).
  - vm_compute. discriminate.
  - reflexivity.
Defined.

(** ** The converter: what a push goes with *)

Lemma update_timestamps_stamp (d : GstDvdLpcmDec) (b : GstBuffer) (s : Z)
    (r : GstDvdLpcmDec * GstBuffer) :
  update_timestamps d b s = Some r ->
  buf_timestamp (snd r) = timestamp (fst r).
Proof.
  unfold update_timestamps. destruct (sdiv _ _); [|discriminate].
  cbn [mbind option_bind].
  destruct (GST_BUFFER_TIMESTAMP_IS_VALID _); intros [= <-]; reflexivity.
Qed.

(** X7. Every run of the converter, whatever the element, the buffer and
    the pipeline: either nothing is pushed, the element is left as it
    was and the result is not GST_FLOW_OK; or exactly one buffer is
    pushed, as the last thing the converter does, the result is the
    answer of that push, the buffer carries the caps of the source pad,
    and the cursor of the element is the timestamp of that buffer. *)
Theorem chain_raw_push_or_unchanged (P : Pipeline) (buf : GstBuffer) (w : World) :
  let run := gst_dvdlpcmdec_chain_raw P buf w in
  let evs := new_events w (snd run) in
  (pushed evs = [] /\ dec (snd run) = dec w /\ fst run <> Some GST_FLOW_OK) \/
  (exists before out,
     evs = before ++ [EvPush out] /\
     pushed before = [] /\
     fst run = Some (pad_push P (trace w ++ before) out) /\
     buf_caps out = srcpad_caps (dec w) /\
     timestamp (dec (snd run)) = buf_timestamp out).
Proof.
  cbv zeta. unfold gst_dvdlpcmdec_chain_raw. run_monad.
  repeat case_split;
  match goal with
  | H : update_timestamps _ _ _ = Some ?r |- _ =>
      right;
      pose proof (update_timestamps_stamp _ _ _ _ H) as Hs;
      pose proof (update_timestamps_cursor _ _ _ _ H) as (_ & _ & Hc);
      cbn [buf_caps gst_buffer_set_caps set_data gst_buffer_stamp] in Hc
  | _ => left
  end.
  all: try (split; [|split; [reflexivity|]]).
  all: try (erewrite new_events_app
              by (cbn [trace]; rewrite <- ?app_assoc; reflexivity); reflexivity).
  all: try discriminate.
  all: try (intros [= E]; rewrite E in *; discriminate).
  all: rewrite <- ?app_assoc; cbn [app];
    match goal with
    | |- context [pad_push _ (trace _ ++ ?b) ?o] =>
        exists b, o; rewrite (new_events_app _ _ (b ++ [EvPush o])) by reflexivity
    end; cbn [dec]; auto.
Qed.

(** ** Timestamps over several buffers *)

(** X8. Two buffers in a row, the first with a timestamp T and the
    second without: the second is stamped T plus its own duration, since
    update_timestamps advances the cursor before it stamps the buffer;
    the duration of the first buffer plays no part. *)
Theorem untimestamped_buffer_follows (d : GstDvdLpcmDec) (b1 b2 : GstBuffer)
    (n1 n2 : Z) :
  0 < rate d -> 0 <= n1 < 2 ^ 31 -> 0 <= n2 < 2 ^ 31 ->
  GST_BUFFER_TIMESTAMP_IS_VALID b1 = true ->
  GST_BUFFER_TIMESTAMP_IS_VALID b2 = false ->
  exists d1 o1 d2 o2,
    update_timestamps d b1 n1 = Some (d1, o1) /\
    update_timestamps d1 b2 n2 = Some (d2, o2) /\
    buf_timestamp o1 = buf_timestamp b1 /\
    buf_duration o1 = n1 * GST_SECOND / rate d /\
    buf_duration o2 = n2 * GST_SECOND / rate d /\
    buf_timestamp o2 = u64 (buf_timestamp b1 + buf_duration o2) /\
    timestamp d2 = buf_timestamp o2.
Proof.
  intros Hr H1 H2 Hv1 Hv2.
  pose proof (update_timestamps_value d b1 n1 Hr H1) as E1.
  cbv zeta in E1. rewrite Hv1 in E1.
  pose proof (update_timestamps_value (set_cursor (buf_timestamp b1) d) b2 n2 Hr H2) as E2.
  cbv zeta in E2. rewrite Hv2 in E2.
  eexists _, _, _, _. split; [exact E1|]. split; [exact E2|].
  cbn. auto.
Qed.

Lemma untimestamped_buffer_follows_witness :
  exists d1 o1 d2 o2,
    update_timestamps (dec lpcm16) (chunk [] 1000) 48 = Some (d1, o1) /\
    update_timestamps d1 (chunk [] GST_CLOCK_TIME_NONE) 96 = Some (d2, o2) /\
    buf_timestamp o1 = 1000 /\ buf_duration o1 = 1000000 /\
    buf_duration o2 = 2000000 /\ buf_timestamp o2 = 2001000.
Proof.
  destruct (untimestamped_buffer_follows (dec lpcm16) (chunk [] 1000)
              (chunk [] GST_CLOCK_TIME_NONE) 48 96
              ltac:(vm_compute; reflexivity) ltac:(lia) ltac:(lia) eq_refl eq_refl)
    as (d1 & o1 & d2 & o2 & E1 & E2 & T1 & D1 & D2 & T2 & _).
  exists d1, o1, d2, o2. rewrite D2 in T2. repeat split; assumption.
Defined.

Lemma update_timestamps_all_run (ns : list Z) :
  forall d : GstDvdLpcmDec,
    0 < rate d ->
    Forall (fun n => 0 <= n < 2 ^ 31) ns ->
    0 <= timestamp d ->
    let F := foldr (fun n acc => n * GST_SECOND / rate d + acc) 0 ns in
    timestamp d + F < 2 ^ 64 ->
    0 <= F /\
    update_timestamps_all d ns = Some (set_cursor (timestamp d + F) d).
Proof.
  induction ns as [|n ns IH]; intros d Hr Hns Ht F HF.
  - subst F. cbn. split; [lia|]. rewrite Z.add_0_r. now destruct d.
  - inversion_clear Hns as [|? ? Hn Hns'].
    subst F. cbn [foldr] in *.
    set (F' := foldr (fun n acc => n * GST_SECOND / rate d + acc) 0 ns) in *.
    assert (Hd : 0 <= n * GST_SECOND / rate d).
    { apply Z.div_pos; unfold GST_SECOND; lia. }
    set (d1 := set_cursor (timestamp d + n * GST_SECOND / rate d) d).
    assert (Ht1 : timestamp d1 = timestamp d + n * GST_SECOND / rate d) by reflexivity.
    destruct (IH d1 Hr Hns' ltac:(lia)) as (HF' & Hrun).
    { rewrite Ht1. change (rate d1) with (rate d). fold F'. lia. }
    change (rate d1) with (rate d) in HF', Hrun. fold F' in HF', Hrun.
    split; [lia|].
    cbn [update_timestamps_all].
    rewrite update_timestamps_value by assumption.
    change (GST_BUFFER_TIMESTAMP_IS_VALID
              (mkBuffer [] GST_CLOCK_TIME_NONE GST_CLOCK_TIME_NONE None)) with false.
    cbn [mbind option_bind fst].
    unfold u64. rewrite Z.mod_small by lia. fold d1.
    rewrite Hrun, Ht1. unfold d1, set_cursor. cbn.
    f_equal. f_equal. lia.
Qed.

Lemma truncated_sum_bounds (R : Z) (ns : list Z) :
  0 < R ->
  Forall (fun n => 0 <= n < 2 ^ 31) ns ->
  let F := foldr (fun n acc => n * GST_SECOND / R + acc) 0 ns in
  let S := foldr Z.add 0 ns in
  R * F <= S * GST_SECOND <= R * F + Z.of_nat (length ns) * (R - 1).
Proof.
  intros HR Hns. induction Hns as [|n ns Hn Hns IH]; cbn [foldr length].
  - lia.
  - cbv zeta in IH.
    set (F := foldr (fun n acc => n * GST_SECOND / R + acc) 0 ns) in *.
    set (S := foldr Z.add 0 ns) in *.
    pose proof (Z.div_mod (n * GST_SECOND) R ltac:(lia)) as Hdm.
    pose proof (Z.mod_pos_bound (n * GST_SECOND) R HR) as Hm.
    nia.
Qed.

(** X9. A run of buffers without timestamp: the cursor advances by the
    sum of the truncated durations, so it never runs ahead of the exact
    time of the samples counted so far, truncated to a nanosecond, and
    it falls behind by at most one nanosecond for every buffer after the
    first. *)
Theorem cursor_drift_bound (d : GstDvdLpcmDec) (ns : list Z) :
  0 < rate d ->
  Forall (fun n => 0 <= n < 2 ^ 31) ns ->
  0 <= timestamp d ->
  let exact := foldr Z.add 0 ns * GST_SECOND / rate d in
  timestamp d + exact < 2 ^ 64 ->
  exists d',
    update_timestamps_all d ns = Some d' /\
    0 <= timestamp d + exact - timestamp d' <= Z.of_nat (Nat.pred (length ns)).
Proof.
  intros Hr Hns Ht exact Hex.
  pose proof (truncated_sum_bounds (rate d) ns Hr Hns) as HB. cbv zeta in HB.
  set (F := foldr (fun n acc => n * GST_SECOND / rate d + acc) 0 ns) in *.
  assert (Hlow : F <= exact).
  { apply Z.div_le_lower_bound; lia. }
  assert (Hup : exact <= F + Z.of_nat (Nat.pred (length ns))).
  { destruct ns as [|n0 ns0].
    - cbn [length Nat.pred] in *. subst exact.
      replace (foldr Z.add 0 [] * GST_SECOND) with (F * rate d) by lia.
      rewrite Z.div_mul by lia. lia.
    - cbn [length Nat.pred] in *.
      assert (exact < F + Z.of_nat (S (length ns0))); [|lia].
      apply Z.div_lt_upper_bound; nia. }
  destruct (update_timestamps_all_run ns d Hr Hns Ht) as (_ & Hrun).
  { fold F. lia. }
  fold F in Hrun. exists (set_cursor (timestamp d + F) d).
  split; [exact Hrun|]. cbn [set_cursor timestamp]. lia.
Qed.

Lemma cursor_drift_bound_witness :
  exists d',
    update_timestamps_all (dec lpcm16) [1; 1; 1] = Some d' /\
    0 <= 62500 - timestamp d' <= 2 /\
    timestamp d' = 62499.
Proof.
  destruct (cursor_drift_bound (dec lpcm16) [1; 1; 1]) as (d' & Hrun & Hb).
  - vm_compute. reflexivity.
  - repeat constructor; lia.
  - vm_compute. discriminate.
  - vm_compute. reflexivity.
  - exists d'. split; [exact Hrun|]. split; [exact Hb|].
    vm_compute in Hrun. now injection Hrun as <-.
Defined.

(** ** The 20-bit path and the duration *)

(** X10. The 20-bit path counts its samples in a variable of its own
    block, so update_timestamps is given the 0 of the function's
    variable: every buffer of a 20-bit stream is pushed with duration 0,
    and one that came without timestamp is stamped with the cursor as it
    stood, which does not advance. *)
Theorem expand20_duration_is_zero (P : Pipeline) (buf : GstBuffer) (w : World) :
  0 < rate (dec w) ->
  pad_is_usable P (trace (entered buf w)) = true ->
  width (dec w) = 20 ->
  channels (dec w) <> 0 ->
  buf_size buf * 8 < 2 ^ 32 ->
  pad_alloc_buffer P (trace (entered buf w)) (buf_size buf * 8 / 20 * 3) = GST_FLOW_OK ->
  let run := gst_dvdlpcmdec_chain_raw P buf w in
  exists out,
    pushed (new_events w (snd run)) = [out] /\
    buf_duration out = 0 /\
    buf_timestamp out =
      (if GST_BUFFER_TIMESTAMP_IS_VALID buf then buf_timestamp buf
       else u64 (timestamp (dec w))) /\
    timestamp (dec (snd run)) = buf_timestamp out.
Proof.
  intros Hr Hu Hw Hc Hsz Ha run.
  assert (Hr' : rate (dec w) <> 0) by lia.
  assert (H0 : 0 <= buf_size buf) by (unfold buf_size; lia).
  assert (Easked : u32 (buf_size buf * 8) / 20 * 3 = buf_size buf * 8 / 20 * 3).
  { now rewrite u32_small by lia. }
  pose proof (chain_raw_20_run P buf w Hr' Hu Hw Hc) as Hrun.
  cbv zeta in Hrun. rewrite Easked in Hrun. specialize (Hrun Ha).
  pose proof (allocation_holds_groups (buf_size buf) H0 Hsz) as Hall.
  rewrite Easked in Hall.
  unfold buf_size in Hrun at 1.
  rewrite expand20_loop_alloc in Hrun
    by (rewrite length_map, length_seq; fold (buf_size buf);
        pose proof (Z.div_pos (buf_size buf) 10 H0 ltac:(lia)); lia).
  rewrite push_converted_value in Hrun by (cbn [dec]; lia).
  cbn [dec trace buf_data buf_timestamp] in Hrun.
  change (0 * GST_SECOND / rate (dec w)) with (0 / rate (dec w)) in Hrun.
  rewrite Z.div_0_l, Z.add_0_r in Hrun by lia.
  subst run. rewrite Hrun. cbn [snd dec].
  eexists. split.
  - erewrite new_events_app by (cbn [trace]; rewrite <- app_assoc; reflexivity).
    reflexivity.
  - cbn. auto.
Qed.

Lemma expand20_duration_is_zero_witness :
  exists out,
    pushed (new_events lpcm20
              (snd (gst_dvdlpcmdec_chain_raw accepting
                      (chunk example_group GST_CLOCK_TIME_NONE) lpcm20))) = [out] /\
    buf_duration out = 0 /\
    buf_timestamp out = 0.
Proof.
  destruct (expand20_duration_is_zero accepting
              (chunk example_group GST_CLOCK_TIME_NONE) lpcm20)
    as (out & Hp & Hd & Ht & _).
  - vm_compute. reflexivity.
  - reflexivity.
  - reflexivity.
  - vm_compute. discriminate.
  - vm_compute. reflexivity.
  - reflexivity.
  - exists out. repeat split; assumption.
Defined.

(** ** A 16-bit chunk from end to end *)

(** The 16-bit path, in full. *)
Lemma chain_raw_16_value (P : Pipeline) (buf : GstBuffer) (w : World) :
  0 < rate (dec w) ->
  pad_is_usable P (trace (entered buf w)) = true ->
  width (dec w) = 16 ->
  1 <= channels (dec w) <= 8 ->
  buf_size buf < 2 ^ 32 ->
  let dur := buf_size buf / channels (dec w) / 2 * GST_SECOND / rate (dec w) in
  let t := if GST_BUFFER_TIMESTAMP_IS_VALID buf then buf_timestamp buf
           else u64 (timestamp (dec w) + dur) in
  let out := mkBuffer (buf_data buf) t dur (srcpad_caps (dec w)) in
  gst_dvdlpcmdec_chain_raw P buf w =
  (Some (pad_push P (trace w ++ [EvChainRaw buf]) out),
   mkWorld (set_cursor t (dec w)) (trace w ++ [EvChainRaw buf; EvPush out])).
Proof.
  intros Hr Hu Hw Hc Hsz dur t out.
  assert (H0 : 0 <= buf_size buf) by (unfold buf_size; lia).
  rewrite (chain_raw_16_run P buf w ltac:(lia) Hu Hw ltac:(lia)).
  rewrite push_converted_value; cbn [entered dec trace].
  - fold dur t out. now rewrite <- app_assoc.
  - exact Hr.
  - split.
    + apply Z.div_pos; [apply Z.div_pos|]; lia.
    + apply Z.div_lt_upper_bound; [lia|].
      assert (buf_size buf / channels (dec w) <= buf_size buf); [|lia].
      apply Z.div_le_upper_bound; nia.
Qed.

Lemma negotiated_events (P : Pipeline) (hdr : Z) (w w0 : World) :
  negotiate_header P hdr w = (Some true, w0) ->
  exists ne, trace w0 = trace w ++ ne /\ pushed ne = [] /\ chain_raw_calls ne = [].
Proof.
  intros Hn. destruct (negotiate_trace P hdr w) as (ok & _ & Ht & _).
  rewrite Hn in Ht. cbn [snd] in Ht.
  eexists. split; [exact Ht|]. destruct (hdr =? header (dec w)); split; reflexivity.
Qed.

(** X11. A chunk of a 16-bit stream whose header is negotiated and whose
    first_access lies within it, in a pipeline whose source pad is usable
    and takes every buffer: the framing is stripped and the payload
    passes unchanged, in one buffer for a first_access of 0 to 4, and
    otherwise split in two at first_access - 4; the timestamp of the
    chunk, if it has one, is the timestamp of the buffer that starts at
    first_access, and the cursor afterwards. *)
Theorem dvd_16_bit_chunk_passes (P : Pipeline) (buf : GstBuffer) (w : World)
    (d0 d1 d2 d3 d4 : Z) (payload : list Z) :
  buffer_wf buf ->
  buf_data buf = d0 :: d1 :: d2 :: d3 :: d4 :: payload ->
  first_access_of d0 d1 - 4 <= Z.of_nat (length payload) ->
  let neg := negotiate_header P (header_of d2 d3 d4) w in
  fst neg = Some true ->
  format_parsed (dec (snd neg)) ->
  width (dec (snd neg)) = 16 ->
  (forall t, pad_is_usable P t = true) ->
  (forall t b, pad_push P t b = GST_FLOW_OK) ->
  let run := gst_dvdlpcmdec_chain_dvd P buf w in
  let out := pushed (new_events w (snd run)) in
  fst run = Some GST_FLOW_OK /\
  concat (map buf_data out) = payload /\
  Forall (fun b => buf_caps b = srcpad_caps (dec (snd neg))) out /\
  (first_access_of d0 d1 <= 4 -> length out = 1%nat) /\
  (4 < first_access_of d0 d1 ->
   exists b1 b2,
     out = [b1; b2] /\
     Z.of_nat (length (buf_data b1)) = first_access_of d0 d1 - 4 /\
     (GST_BUFFER_TIMESTAMP_IS_VALID buf = true ->
      buf_timestamp b2 = buf_timestamp buf /\
      timestamp (dec (snd run)) = buf_timestamp buf)).
Proof.
  intros Hwf E Hin neg Hok Hfmt Hw Husable Hpush run out.
  destruct neg as [o w0] eqn:Hn. cbn [fst snd] in *. subst o.
  destruct (negotiated_events P _ w w0 Hn) as (ne & Ht0 & Hp0 & _).
  destruct Hfmt as (Hrate & Hch & _ & _).
  assert (Hr : 0 < rate (dec w0)) by lia.
  pose proof Hwf as [Hbytes Hsz].
  pose proof (chunk_size buf d0 d1 d2 d3 d4 payload E) as Hsize.
  destruct (Z_le_gt_dec (first_access_of d0 d1) 4) as [Hfa|Hfa].
  - (* one sub-buffer *)
    assert (Hrun : run = _) by
      exact (chain_dvd_single P buf w d0 d1 d2 d3 d4 payload E w0 Hwf Hfa Hn).
    rewrite chain_raw_16_value in Hrun
      by (auto; unfold buf_size; cbn [buf_data]; lia).
    cbn [buf_data dec] in Hrun. rewrite Hpush in Hrun.
    subst out. rewrite Hrun. cbn [fst snd].
    erewrite new_events_app
      by (cbn [trace]; rewrite Ht0, <- app_assoc; reflexivity).
    rewrite pushed_app, Hp0. cbn.
    split; [reflexivity|]. split; [now rewrite app_nil_r|].
    split; [repeat constructor|]. split; [reflexivity|lia].
  - (* two sub-buffers *)
    pose proof (chain_dvd_double P buf w d0 d1 d2 d3 d4 payload E w0 Hwf
                  ltac:(lia) Hin Hn) as Hrun.
    cbv zeta in Hrun.
    set (n := Z.to_nat (first_access_of d0 d1 - 4)) in *.
    assert (Hn1 : (n <= length payload)%nat) by lia.
    rewrite chain_raw_16_value in Hrun
      by (auto; unfold buf_size; cbn [buf_data]; rewrite length_take; lia).
    cbn [buf_data dec trace fst snd] in Hrun. rewrite Hpush in Hrun.
    rewrite chain_raw_16_value in Hrun
      by (cbn [dec set_cursor rate width channels]; auto;
          unfold buf_size; cbn [buf_data]; rewrite length_drop; lia).
    cbn [buf_data dec trace fst snd buf_timestamp] in Hrun. rewrite Hpush in Hrun.
    subst out. fold run in Hrun. rewrite Hrun. cbn [fst snd].
    erewrite new_events_app
      by (cbn [trace]; rewrite Ht0, <- !app_assoc; reflexivity).
    rewrite !pushed_app, Hp0. cbn.
    split; [reflexivity|]. split; [now rewrite app_nil_r, take_drop|].
    split; [repeat constructor|]. split; [lia|]. intros _.
    eexists _, _. split; [reflexivity|]. cbn [buf_data buf_timestamp].
    split; [rewrite length_take; lia|].
    intros Hv.
    change (GST_BUFFER_TIMESTAMP_IS_VALID
              (mkBuffer (drop n payload) (buf_timestamp buf) GST_CLOCK_TIME_NONE None))
      with (GST_BUFFER_TIMESTAMP_IS_VALID buf).
    rewrite Hv. split; reflexivity.
Qed.

Lemma dvd_16_bit_chunk_passes_witness :
  let run := gst_dvdlpcmdec_chain_dvd accepting chunk16 fresh_world in
  fst run = Some GST_FLOW_OK /\
  map buf_data (pushed (new_events fresh_world (snd run)))
  = [[0xF0; 0xF1; 0xF2; 0xF3]; [0xF4; 0xF5; 0xF6; 0xF7]] /\
  map buf_timestamp (pushed (new_events fresh_world (snd run))) = [20833; 7000].
Proof.
  split; [|split; reflexivity].
  refine (proj1 (dvd_16_bit_chunk_passes accepting chunk16 fresh_world
                   0 8 0x00 0x01 0x01 [0xF0; 0xF1; 0xF2; 0xF3; 0xF4; 0xF5; 0xF6; 0xF7]
                   _ eq_refl _ eq_refl _ eq_refl _ _)).
  - split; [|vm_compute; reflexivity]. repeat constructor; lia.
  - vm_compute. discriminate.
  - vm_compute. repeat split; auto; discriminate.
  - reflexivity.
  - reflexivity.
Defined.

(** ** What the two loops keep and what they lose *)

Lemma reorder24_spec_permutation (n : nat) :
  forall l : list Z, (length l < 12 * n)%nat -> reorder24_spec l ≡ₚ l.
Proof.
  induction n as [|n IH]; intros l Hl; [lia|].
  destruct l as [|s0 [|s1 [|s2 [|s3 [|s4 [|s5 [|s6 [|s7 [|s8 [|s9 [|s10 [|s11 rest]]]]]]]]]]]];
    try reflexivity.
  cbn [reorder24_spec app].
  assert (IH' : reorder24_spec rest ≡ₚ rest) by (apply IH; cbn [length] in Hl; lia).
  do 2 apply perm_skip.
  apply Permutation_cons_app with (l1 := [s2; s3; s4; s5; s6; s7]) (l2 := s9 :: s10 :: s11 :: rest).
  cbn [app]. do 2 apply perm_skip.
  apply Permutation_cons_app with (l1 := [s4; s5; s6; s7]) (l2 := s10 :: s11 :: rest).
  cbn [app]. do 2 apply perm_skip.
  apply Permutation_cons_app with (l1 := [s6; s7]) (l2 := s11 :: rest).
  cbn [app]. do 3 apply perm_skip. exact IH'.
Qed.

(** X12. The 24-bit loop on any buffer, whatever its length: it stays
    within the buffer, and what it leaves is a rearrangement of the
    bytes it found; no byte is lost, doubled or changed. *)
Theorem reorder24_rearranges (data : list Z) :
  exists out,
    reorder24_loop (Z.to_nat (Z.of_nat (length data) / 12)) data 0 = Some out /\
    out ≡ₚ data /\
    length out = length data.
Proof.
  exists (reorder24_spec data). split; [apply reorder24_loop_whole|].
  assert (H : reorder24_spec data ≡ₚ data).
  { apply (reorder24_spec_permutation (S (length data))). lia. }
  split; [exact H|]. now rewrite H.
Qed.

Lemma expand20_spec_insert_9 (g : nat) :
  forall (l : list Z) (old v : Z),
    l !! (10 * g + 9)%nat = Some old ->
    Z.land v 0x0F = Z.land old 0x0F ->
    expand20_spec (<[(10 * g + 9)%nat := v]> l) = expand20_spec l.
Proof.
  induction g as [|g IH]; intros l old v Hl Hv.
  - destruct l as [|s0 [|s1 [|s2 [|s3 [|s4 [|s5 [|s6 [|s7 [|s8 [|s9 rest]]]]]]]]]];
      try discriminate.
    cbn in Hl. injection Hl as ->. cbn. now rewrite Hv.
  - replace (10 * S g + 9)%nat with (10 + (10 * g + 9))%nat in * by lia.
    destruct l as [|s0 [|s1 [|s2 [|s3 [|s4 [|s5 [|s6 [|s7 [|s8 [|s9 rest]]]]]]]]]];
      try discriminate.
    cbn [Nat.add] in *. cbn [lookup list_lookup] in Hl.
    cbn [insert list_insert expand20_spec]. f_equal.
    now apply (IH rest old v).
Qed.

(** X13. The upper four bits of byte 9 of a 10-byte group never reach
    the output of the 20-bit loop: two inputs that differ only there are
    expanded to the same bytes. *)
Theorem expand20_drops_high_nibble (data fresh : list Z) (g : nat) (old v : Z) :
  data !! (10 * g + 9)%nat = Some old ->
  Z.land v 0x0F = Z.land old 0x0F ->
  let count := Z.to_nat (Z.of_nat (length data) / 10) in
  (12 * count <= length fresh)%nat ->
  expand20_loop count (<[(10 * g + 9)%nat := v]> data) 0 fresh 0 =
  expand20_loop count data 0 fresh 0.
Proof.
  intros Hl Hv count Hfresh. subst count.
  rewrite (expand20_loop_alloc data fresh Hfresh).
  pose proof (expand20_loop_alloc (<[(10 * g + 9)%nat := v]> data) fresh) as H.
  rewrite length_insert in H. rewrite (H Hfresh).
  now rewrite (expand20_spec_insert_9 g data old v).
Qed.

Lemma expand20_drops_high_nibble_witness :
  expand20_loop 1 [0x11; 0x22; 0x33; 0x44; 0x55; 0x66; 0x77; 0x88; 0xA5; 0xFA]
    0 (replicate 12 0) 0 =
  expand20_loop 1 example_group 0 (replicate 12 0) 0.
Proof.
  refine (expand20_drops_high_nibble example_group (replicate 12 0) 0 0x5A 0xFA
            eq_refl eq_refl _).
  vm_compute. repeat constructor.
Defined.

(** ** The caps of the sink pad *)

Ltac run_setcaps :=
  unfold gst_dvdlpcmdec_setcaps, gst_pad_set_chain_function, setcaps_raw, get_into,
    gst_pad_set_caps, bind, ret, get_dec, put_dec, emit, get_trace;
  cbn [fst snd dec trace world sink_chain andb negb].

(** The element once all six fields have been found. *)
Lemma six_fields_written (d : GstDvdLpcmDec) (r c wd dr : Z) (em mu : bool) :
  set_mute mu (set_emphasis em (set_dynamic_range dr
    (set_width wd (set_channels c (set_rate r d)))))
  = mkDec r c wd (out_width d) dr em mu (timestamp d) (header d) (srcpad_caps d).
Proof. reflexivity. Qed.

Ltac written_fields :=
  rewrite !six_fields_written;
  unfold src_caps_of, set_out_width;
  cbn [rate channels width out_width dynamic_range emphasis mute timestamp header
       srcpad_caps].

(** X14. gst_dvdlpcmdec_setcaps never fails to return, and it returns
    TRUE in two cases only: the caps are named audio/x-private1-lpcm,
    whatever else they hold, and then nothing but the chain function
    changes; or they hold rate, channels, width and dynamic_range as
    ints and emphasis and mute as booleans, and the source pad accepts
    the caps made of the rate, the channels and the output width (24 for
    a width of 20, the width itself otherwise). The values themselves
    are not looked at. *)
Theorem setcaps_accepts_iff (P : Pipeline) (caps : option GstStructure) (e : Element) :
  let run := gst_dvdlpcmdec_setcaps P caps e in
  (exists res, fst run = Some res) /\
  (fst run = Some true <->
   exists s, caps = Some s /\
     (gst_structure_has_name s "audio/x-private1-lpcm" = true \/
      exists r c wd dr em mu,
        gst_structure_get_int s "rate" = Some r /\
        gst_structure_get_int s "channels" = Some c /\
        gst_structure_get_int s "width" = Some wd /\
        gst_structure_get_int s "dynamic_range" = Some dr /\
        gst_structure_get_boolean s "emphasis" = Some em /\
        gst_structure_get_boolean s "mute" = Some mu /\
        let ow := if wd =? 20 then 24 else wd in
        pad_set_caps P (trace (world e)) (mkCaps r c ow ow) = true)) /\
  (forall s, caps = Some s ->
     gst_structure_has_name s "audio/x-private1-lpcm" = true ->
     snd run = mkElement (world e) (Some CHAIN_DVD)) /\
  (caps = None -> snd run = e).
Proof.
  destruct caps as [s|]; cbv zeta; cycle 1.
  { cbn. split; [eauto|]. split; [|split; [discriminate|reflexivity]].
    split; [discriminate|]. intros (s & [=] & _). }
  unfold gst_dvdlpcmdec_setcaps.
  destruct (gst_structure_has_name s "audio/x-private1-lpcm") eqn:Hname.
  { cbn. split; [eauto|]. split; [|split; [reflexivity|discriminate]].
    split; [|reflexivity]. intros _. exists s. split; [reflexivity|]. now left. }
  run_setcaps.
  destruct (gst_structure_get_int s "rate") as [r|] eqn:E1,
           (gst_structure_get_int s "channels") as [c|] eqn:E2,
           (gst_structure_get_int s "width") as [wd|] eqn:E3,
           (gst_structure_get_int s "dynamic_range") as [dr|] eqn:E4,
           (gst_structure_get_boolean s "emphasis") as [em|] eqn:E5,
           (gst_structure_get_boolean s "mute") as [mu|] eqn:E6;
    cbn [fst snd dec trace world sink_chain andb negb].
  all: try (split; [eauto|]; split; [|split; [|discriminate]];
            [ split; [discriminate|];
              intros (s' & [= <-] & [Hn | (? & ? & ? & ? & ? & ? & H1 & H2 & H3 & H4 & H5 & H6 & _)]);
              congruence
            | intros s' [= <-] Hn; congruence ]).
  written_fields.
  destruct (pad_set_caps P (trace (world e)) _) eqn:Hacc;
    cbn [fst snd]; (split; [eauto|]; split; [|split; [|discriminate]]).
  - split; [|reflexivity]. intros _. exists s. split; [reflexivity|]. right.
    exists r, c, wd, dr, em, mu. repeat split; try assumption.
  - intros s' [= <-] Hn; congruence.
  - split; [discriminate|].
    intros (s' & [= <-] & [Hn | (? & ? & ? & ? & ? & ? & H1 & H2 & H3 & H4 & H5 & H6 & Hp)]);
      [congruence|].
    cbv zeta in Hp.
    assert (x = r /\ x0 = c /\ x1 = wd) as (-> & -> & ->) by (repeat split; congruence).
    rewrite Hp in Hacc. discriminate.
  - intros s' [= <-] Hn; congruence.
Qed.

(** X15. Caps that are not the DVD ones and lack one of the six fields,
    or hold it with another type: the function returns FALSE and
    proposes nothing to the source pad, but by then
    gst_dvdlpcmdec_chain_raw is the chain function and every field that
    was found is written over the one of the element; the output width,
    the header word and the cursor are as they were. *)
Theorem setcaps_parse_error_is_partial (P : Pipeline) (s : GstStructure) (e : Element) :
  gst_structure_has_name s "audio/x-private1-lpcm" = false ->
  gst_structure_get_int s "rate" = None \/
  gst_structure_get_int s "channels" = None \/
  gst_structure_get_int s "width" = None \/
  gst_structure_get_int s "dynamic_range" = None \/
  gst_structure_get_boolean s "emphasis" = None \/
  gst_structure_get_boolean s "mute" = None ->
  let run := gst_dvdlpcmdec_setcaps P (Some s) e in
  let d := dec (world e) in
  let d' := dec (world (snd run)) in
  fst run = Some false /\
  trace (world (snd run)) = trace (world e) /\
  sink_chain (snd run) = Some CHAIN_RAW /\
  rate d' = default (rate d) (gst_structure_get_int s "rate") /\
  channels d' = default (channels d) (gst_structure_get_int s "channels") /\
  width d' = default (width d) (gst_structure_get_int s "width") /\
  dynamic_range d' = default (dynamic_range d) (gst_structure_get_int s "dynamic_range") /\
  emphasis d' = default (emphasis d) (gst_structure_get_boolean s "emphasis") /\
  mute d' = default (mute d) (gst_structure_get_boolean s "mute") /\
  out_width d' = out_width d /\
  header d' = header d /\
  timestamp d' = timestamp d /\
  srcpad_caps d' = srcpad_caps d.
Proof.
  intros Hname Hmiss. cbv zeta.
  unfold gst_dvdlpcmdec_setcaps. rewrite Hname. run_setcaps.
  destruct (gst_structure_get_int s "rate") as [r|],
           (gst_structure_get_int s "channels") as [c|],
           (gst_structure_get_int s "width") as [wd|],
           (gst_structure_get_int s "dynamic_range") as [dr|],
           (gst_structure_get_boolean s "emphasis") as [em|],
           (gst_structure_get_boolean s "mute") as [mu|];
    cbn [fst snd dec trace world sink_chain andb negb default from_option id];
    try (repeat split; reflexivity).
  exfalso. destruct Hmiss as [H | [H | [H | [H | [H | H]]]]]; discriminate.
Qed.

Lemma setcaps_parse_error_is_partial_witness :
  let e := mkElement lpcm20 (Some CHAIN_DVD) in
  let run := gst_dvdlpcmdec_setcaps accepting (Some lpcm_caps_short) e in
  fst run = Some false /\
  sink_chain (snd run) = Some CHAIN_RAW /\
  rate (dec (world (snd run))) = 96000 /\
  channels (dec (world (snd run))) = 1 /\
  width (dec (world (snd run))) = 16 /\
  out_width (dec (world (snd run))) = 24.
Proof.
  cbv zeta.
  pose proof (setcaps_parse_error_is_partial accepting
                lpcm_caps_short (mkElement lpcm20 (Some CHAIN_DVD)) eq_refl
                (or_intror (or_introl eq_refl)))
    as (H1 & _ & H3 & H4 & H5 & H6 & _ & _ & _ & H10 & _).
  repeat split; assumption.
Defined.

Lemma int_field_in_some (s : GstStructure) (name : string) (ok : Z -> bool) :
  int_field_in s name ok = true ->
  exists v, gst_structure_get_int s name = Some v /\ ok v = true.
Proof.
  unfold int_field_in. destruct (gst_structure_get_int s name) as [v|]; [|discriminate].
  intros H. now exists v.
Qed.

Lemma boolean_field_some (s : GstStructure) (name : string) :
  boolean_field s name = true ->
  exists b, gst_structure_get_boolean s name = Some b.
Proof.
  unfold boolean_field. destruct (gst_structure_get_boolean s name) as [b|]; [|discriminate].
  intros _. now exists b.
Qed.

(** Caps within the audio/x-lpcm structure of the sink template, step by
    step through the function. *)
Lemma setcaps_template_run (P : Pipeline) (s : GstStructure) (e : Element) :
  sink_template_lpcm s = true ->
  exists r c wd dr em mu,
    gst_structure_get_int s "rate" = Some r /\
    gst_structure_get_int s "channels" = Some c /\
    gst_structure_get_int s "width" = Some wd /\
    (r = 48000 \/ r = 96000) /\
    1 <= c <= 8 /\
    (wd = 16 \/ wd = 20 \/ wd = 24) /\
    0 <= dr <= 255 /\
    let d := dec (world e) in
    let ow := if wd =? 20 then 24 else wd in
    let caps := mkCaps r c ow ow in
    let d1 := mkDec r c wd ow dr em mu (timestamp d) (header d) (srcpad_caps d) in
    let t1 := trace (world e) ++ [EvSetCaps caps] in
    gst_dvdlpcmdec_setcaps P (Some s) e =
    if pad_set_caps P (trace (world e)) caps
    then (Some true,
          mkElement (mkWorld (set_srcpad_caps (Some caps) d1) t1) (Some CHAIN_RAW))
    else (Some false, mkElement (mkWorld d1 t1) (Some CHAIN_RAW)).
Proof.
  unfold sink_template_lpcm. rewrite !andb_true_iff.
  intros ((((((Hname & Hw) & Hr) & Hc) & Hd) & He) & Hm).
  apply int_field_in_some in Hw as (wd & Ew & Hw).
  apply int_field_in_some in Hr as (r & Er & Hr).
  apply int_field_in_some in Hc as (c & Ec & Hc).
  apply int_field_in_some in Hd as (dr & Ed & Hd).
  apply boolean_field_some in He as (em & Ee).
  apply boolean_field_some in Hm as (mu & Em).
  exists r, c, wd, dr, em, mu.
  split; [exact Er|]. split; [exact Ec|]. split; [exact Ew|].
  split; [lia|]. split; [lia|]. split; [lia|]. split; [lia|].
  assert (Hdvd : gst_structure_has_name s "audio/x-private1-lpcm" = false).
  { unfold gst_structure_has_name in *. apply bool_decide_eq_true in Hname.
    rewrite Hname. reflexivity. }
  cbv zeta. unfold gst_dvdlpcmdec_setcaps. rewrite Hdvd. run_setcaps.
  rewrite Er, Ec, Ew, Ed, Ee, Em.
  cbn [fst snd dec trace world sink_chain andb negb].
  written_fields.
  destruct (pad_set_caps P (trace (world e)) _); reflexivity.
Qed.

(** X16. Caps within the audio/x-lpcm structure of the sink template:
    the caps proposed to the source pad, once, lie within the source
    template; the answer of the pad is the result; and whatever the pad
    answers, the converter is the chain function and the element holds a
    format that parse_header could have produced. *)
Theorem setcaps_template_caps (P : Pipeline) (s : GstStructure) (e : Element) :
  sink_template_lpcm s = true ->
  let run := gst_dvdlpcmdec_setcaps P (Some s) e in
  exists caps,
    trace (world (snd run)) = trace (world e) ++ [EvSetCaps caps] /\
    src_template caps = true /\
    Some (caps_rate caps) = gst_structure_get_int s "rate" /\
    Some (caps_channels caps) = gst_structure_get_int s "channels" /\
    fst run = Some (pad_set_caps P (trace (world e)) caps) /\
    sink_chain (snd run) = Some CHAIN_RAW /\
    format_parsed (dec (world (snd run))) /\
    (fst run = Some true -> srcpad_caps (dec (world (snd run))) = Some caps).
Proof.
  intros Ht run.
  destruct (setcaps_template_run P s e Ht)
    as (r & c & wd & dr & em & mu & Er & Ec & Ew & Hr & Hc & Hw & Hd & Hrun).
  cbv zeta in Hrun. subst run. rewrite Hrun, Er, Ec.
  eexists. 
  destruct (pad_set_caps P (trace (world e)) _) eqn:Hacc;
    cbn [fst snd world trace dec sink_chain].
  all: split; [reflexivity|].
  all: split; [unfold src_template; cbn [caps_width caps_rate caps_channels caps_depth];
               destruct Hr as [-> | ->], Hw as [-> | [-> | ->]];
               cbn; destruct (Z.leb_spec 1 c), (Z.leb_spec c 8); try lia; reflexivity|].
  all: split; [reflexivity|]. 
  all: split; [reflexivity|].
  all: split; [now rewrite ?Hacc|].
  all: split; [reflexivity|].
  all: split; [|intros; try discriminate; reflexivity].
  all: unfold format_parsed, set_srcpad_caps;
    cbn [rate channels width out_width dynamic_range];
    (split; [exact Hr|]); (split; [exact Hc|]); (split; [|exact Hd]);
    destruct Hw as [-> | [-> | ->]]; cbn; auto.
Qed.

Lemma setcaps_template_caps_witness :
  let run := gst_dvdlpcmdec_setcaps accepting (Some lpcm_caps) gst_dvdlpcmdec_init in
  exists caps,
    trace (world (snd run)) = [EvSetCapsNull; EvSetCaps caps] /\
    src_template caps = true /\
    caps = mkCaps 48000 2 16 16.
Proof.
  destruct (setcaps_template_caps accepting lpcm_caps gst_dvdlpcmdec_init eq_refl)
    as (caps & Ht & Hs & _).
  exists caps. split; [exact Ht|]. split; [exact Hs|].
  vm_compute in Ht. now injection Ht as <-.
Defined.

(** X17. The two ways to a format agree: caps without header that hold
    the values parse_header reads from a header word leave the element
    with the format that header word gives it, the output width
    included, and propose the same caps to the source pad. *)
Theorem raw_and_dvd_formats_agree (P : Pipeline) (s : GstStructure) (e : Element)
    (d0 : GstDvdLpcmDec) (h : Z) :
  let f := parse_header d0 h in
  gst_structure_has_name s "audio/x-private1-lpcm" = false ->
  gst_structure_get_int s "rate" = Some (rate f) ->
  gst_structure_get_int s "channels" = Some (channels f) ->
  gst_structure_get_int s "width" = Some (width f) ->
  gst_structure_get_int s "dynamic_range" = Some (dynamic_range f) ->
  gst_structure_get_boolean s "emphasis" = Some (emphasis f) ->
  gst_structure_get_boolean s "mute" = Some (mute f) ->
  let run := gst_dvdlpcmdec_setcaps P (Some s) e in
  format_of (dec (world (snd run))) = format_of f /\
  trace (world (snd run)) = trace (world e) ++ [EvSetCaps (src_caps_of f)].
Proof.
  intros f Hname E1 E2 E3 E4 E5 E6 run.
  assert (Hw : (if width f =? 20 then 24 else width f) = out_width f).
  { subst f. unfold parse_header. cbn [width out_width].
    destruct (_ =? 0x8000); [reflexivity|]. destruct (_ =? 0x4000); reflexivity. }
  subst run. unfold gst_dvdlpcmdec_setcaps. rewrite Hname. run_setcaps.
  rewrite E1, E2, E3, E4, E5, E6.
  cbn [fst snd dec trace world sink_chain andb negb].
  written_fields.
  rewrite Hw.
  destruct (pad_set_caps P (trace (world e)) _); cbn [fst snd world dec trace];
    split; reflexivity.
Qed.

Lemma raw_and_dvd_formats_agree_witness :
  let run := gst_dvdlpcmdec_setcaps accepting (Some lpcm_caps) gst_dvdlpcmdec_init in
  format_of (dec (world (snd run))) = format_of (parse_header gst_dvdlpcm_reset 0x000100) /\
  trace (world (snd run)) = [EvSetCapsNull; EvSetCaps (mkCaps 48000 2 16 16)].
Proof.
  exact (raw_and_dvd_formats_agree accepting lpcm_caps gst_dvdlpcmdec_init
           gst_dvdlpcm_reset 0x000100 eq_refl eq_refl eq_refl eq_refl eq_refl
           eq_refl eq_refl).
Defined.

(** X18. A stream without header, from its caps to its first buffer:
    once caps within the sink template with a width of 16 or 24 are
    accepted, a buffer handed to the converter is pushed exactly once,
    with the caps that were negotiated, the bytes as they came (16) or
    reordered (24), the duration of size / channels / bytes-per-sample
    samples at the rate of the caps, and its own timestamp or, without
    one, the cursor advanced by that duration. *)
Theorem raw_stream_converts (P : Pipeline) (s : GstStructure) (e : Element)
    (buf : GstBuffer) :
  sink_template_lpcm s = true ->
  gst_structure_get_int s "width" <> Some 20 ->
  let run := gst_dvdlpcmdec_setcaps P (Some s) e in
  fst run = Some true ->
  let w := world (snd run) in
  buffer_wf buf ->
  pad_is_usable P (trace (entered buf w)) = true ->
  let conv := gst_dvdlpcmdec_chain_raw P buf w in
  exists r c wd out,
    gst_structure_get_int s "rate" = Some r /\
    gst_structure_get_int s "channels" = Some c /\
    gst_structure_get_int s "width" = Some wd /\
    sink_chain (snd run) = Some CHAIN_RAW /\
    new_events w (snd conv) = [EvChainRaw buf; EvPush out] /\
    fst conv = Some (pad_push P (trace (entered buf w)) out) /\
    buf_data out =
      (if wd =? 16 then buf_data buf else reorder24_spec (buf_data buf)) /\
    buf_caps out = Some (mkCaps r c wd wd) /\
    buf_duration out = buf_size buf / c / (wd / 8) * GST_SECOND / r /\
    buf_timestamp out =
      (if GST_BUFFER_TIMESTAMP_IS_VALID buf then buf_timestamp buf
       else u64 (timestamp (dec (world e)) + buf_duration out)).
Proof.
  intros Ht Hn20 run Hok w [_ Hsz] Hu conv.
  destruct (setcaps_template_run P s e Ht)
    as (r & c & wd & dr & em & mu & Er & Ec & Ew & Hr & Hc & Hw & Hd & Hrun).
  cbv zeta in Hrun.
  assert (Hwd : wd = 16 \/ wd = 24).
  { destruct Hw as [-> | [-> | ->]]; auto. now rewrite Ew in Hn20. }
  assert (Eow : (if wd =? 20 then 24 else wd) = wd) by (destruct Hwd as [-> | ->]; reflexivity).
  rewrite Eow in Hrun.
  subst run w conv. rewrite Hrun in Hok, Hu |- *. clear Hrun.
  destruct (pad_set_caps P (trace (world e)) _); [|discriminate].
  cbn [snd world sink_chain] in *.
  set (d1 := set_srcpad_caps _ _) in *.
  set (t1 := trace (world e) ++ _) in *.
  exists r, c, wd. 
  assert (H0 : 0 <= buf_size buf) by (unfold buf_size; lia).
  assert (Hs : forall k, 2 <= k -> 0 <= buf_size buf / c / k < 2 ^ 31).
  { intros k Hk. split.
    - apply Z.div_pos; [apply Z.div_pos|]; lia.
    - apply Z.div_lt_upper_bound; [lia|].
      assert (buf_size buf / c <= buf_size buf); [|lia].
      apply Z.div_le_upper_bound; nia. }
  assert (Hrate : 0 < rate d1) by (cbn; lia).
  assert (Hrate' : rate (dec (mkWorld d1 t1)) <> 0) by (cbn; lia).
  assert (Hch : 0 < channels (dec (mkWorld d1 t1)) < 2 ^ 32) by (cbn; lia).
  destruct Hwd as [-> | ->].
  - rewrite (chain_raw_16_run P buf (mkWorld d1 t1) Hrate' Hu eq_refl Hch).
    rewrite push_converted_value
      by (cbn [dec entered];
          first [exact Hrate | change (channels d1) with c; apply Hs; lia]).
    eexists. cbn [fst snd]. 
    split; [exact Er|]. split; [exact Ec|]. split; [exact Ew|]. split; [reflexivity|].
    split; [apply new_events_app; cbn [entered trace]; now rewrite <- app_assoc|].
    subst d1 t1. cbn. auto.
  - rewrite (chain_raw_24_run P buf (mkWorld d1 t1) Hrate' Hu eq_refl Hch).
    assert (E24 : reorder24_loop (Z.to_nat (buf_size buf / 12)) (buf_data buf) 0
                  = Some (reorder24_spec (buf_data buf)))
      by apply reorder24_loop_whole.
    rewrite E24.
    rewrite push_converted_value
      by (cbn [dec entered];
          first [exact Hrate | change (channels d1) with c; apply Hs; lia]).
    eexists. cbn [fst snd].
    split; [exact Er|]. split; [exact Ec|]. split; [exact Ew|]. split; [reflexivity|].
    split; [apply new_events_app; cbn [entered trace]; now rewrite <- app_assoc|].
    subst d1 t1. cbn. auto.
Qed.

Lemma raw_stream_converts_witness :
  let w := world (snd (gst_dvdlpcmdec_setcaps accepting (Some lpcm_caps)
                         gst_dvdlpcmdec_init)) in
  exists out,
    new_events w (snd (gst_dvdlpcmdec_chain_raw accepting two_frames w))
      = [EvChainRaw two_frames; EvPush out] /\
    buf_data out = [0xE0; 0xE1; 0xE2; 0xE3; 0xE4; 0xE5; 0xE6; 0xE7] /\
    buf_caps out = Some (mkCaps 48000 2 16 16) /\
    buf_duration out = 41666 /\
    buf_timestamp out = 5000.
Proof.
  destruct (raw_stream_converts accepting lpcm_caps gst_dvdlpcmdec_init two_frames)
    as (r & c & wd & out & Er & Ec & Ew & _ & Hev & _ & Hd & Hc & Hdu & Hts).
  - reflexivity.
  - vm_compute. discriminate.
  - reflexivity.
  - split; [|vm_compute; reflexivity]. repeat constructor; lia.
  - reflexivity.
  - vm_compute in Er, Ec, Ew.
    injection Er as <-. injection Ec as <-. injection Ew as <-.
    exists out. repeat split; assumption.
Defined.

(** ** The state change *)

(** X19. gst_dvdlpcmdec_change_state returns what the parent class
    returns and never touches the chain function. On READY_TO_PAUSED,
    whatever the parent answers, the element is reset: it calls
    gst_pad_set_caps (srcpad, NULL), which is all it asks of the source
    pad, and the format, the header word and the cursor are forgotten,
    so that the converter refuses the next buffer as "pushed before
    negotiation"; on every other transition, PAUSED_TO_READY included,
    the element asks nothing of the pad and they are kept. *)
Theorem change_state_resets (parent : ParentChangeState)
    (transition : GstStateTransition) (e : Element) :
  let run := gst_dvdlpcmdec_change_state parent transition e in
  let d := dec (world e) in
  let d' := dec (world (snd run)) in
  sink_chain (snd run) = sink_chain e /\
  (transition = GST_STATE_READY_TO_PAUSED ->
   trace (world (snd run)) = trace (world e) ++ [EvSetCapsNull] /\
   fst run = fst (parent transition None) /\
   format_unset d' /\ header d' = 0 /\ timestamp d' = 0 /\
   forall (P : Pipeline) (buf : GstBuffer),
     gst_dvdlpcmdec_chain_raw P buf (world (snd run)) =
     (Some GST_FLOW_NOT_NEGOTIATED,
      mkWorld d'
        (trace (world e)
           ++ [EvSetCapsNull; EvChainRaw buf; EvElementError STREAM_FORMAT]))) /\
  (transition <> GST_STATE_READY_TO_PAUSED ->
   trace (world (snd run)) = trace (world e) /\
   fst run = fst (parent transition (srcpad_caps d)) /\
   format_of d' = format_of d /\ header d' = header d /\ timestamp d' = timestamp d).
Proof.
  cbv zeta. unfold gst_dvdlpcmdec_change_state.
  split; [destruct transition; reflexivity|]. split.
  - intros ->. unfold gst_dvdlpcm_reset_call, bind, put_dec, emit.
    cbn [fst snd world dec trace]. repeat split.
    intros P buf. rewrite chain_raw_not_negotiated by reflexivity.
    cbn [dec trace]. now rewrite <- app_assoc.
  - intros Hne. destruct transition; try contradiction; now cbn.
Qed.



(** ** What a DVD stream keeps *)

Lemma land_7_range (x : Z) : 0 <= Z.land x 7 <= 7.
Proof.
  rewrite (land_ones_mod x 3 7) by (lia || reflexivity). change (2 ^ 3) with 8.
  pose proof (Z.mod_pos_bound x 8 ltac:(lia)). lia.
Qed.

Lemma land_ff_range (x : Z) : 0 <= Z.land x 0xff <= 255.
Proof.
  rewrite (land_ones_mod x 8 0xff) by (lia || reflexivity). change (2 ^ 8) with 256.
  pose proof (Z.mod_pos_bound x 256 ltac:(lia)). lia.
Qed.

Lemma parse_header_parsed (d : GstDvdLpcmDec) (h : Z) :
  format_parsed (parse_header d h).
Proof.
  unfold format_parsed, parse_header.
  cbn [rate channels width out_width dynamic_range].
  pose proof (land_7_range (Z.shiftr h 8)). pose proof (land_ff_range h).
  repeat split; try lia.
  - destruct (negb _); auto.
  - destruct (_ =? 0x8000); [cbn; auto|]. destruct (_ =? 0x4000); cbn; auto.
Qed.

Lemma format_parsed_template (d : GstDvdLpcmDec) :
  format_parsed d -> src_template (src_caps_of d) = true.
Proof.
  intros (Hr & Hc & Hw & _). unfold src_template, src_caps_of.
  cbn [caps_width caps_rate caps_channels caps_depth].
  destruct Hr as [-> | ->], Hw as [[_ ->] | [[_ ->] | [_ ->]]]; cbn;
    destruct (Z.leb_spec 1 (channels d)), (Z.leb_spec (channels d) 8);
    try lia; reflexivity.
Qed.

Lemma format_valid_same (d d' : GstDvdLpcmDec) :
  format_of d' = format_of d -> format_valid d -> format_valid d'.
Proof.
  intros E [Hu | Hp].
  - left. unfold format_unset in *. congruence.
  - right. unfold format_parsed, format_of in *.
    assert (E1 : rate d' = rate d) by congruence.
    assert (E2 : channels d' = channels d) by congruence.
    assert (E3 : width d' = width d) by congruence.
    assert (E4 : out_width d' = out_width d) by congruence.
    assert (E5 : dynamic_range d' = dynamic_range d) by congruence.
    now rewrite E1, E2, E3, E4, E5.
Qed.

Lemma format_valid_width (d : GstDvdLpcmDec) :
  format_valid d ->
  rate d = 0 \/ width d = 16 \/ width d = 20 \/ width d = 24.
Proof.
  intros [Hu | (_ & _ & Hw & _)].
  - left. unfold format_unset, format_of in Hu. cbn in Hu. congruence.
  - right. intuition.
Qed.

(** With no rate or with one of the three widths, the converter never
    reaches invalid_width. *)
Lemma chain_raw_events (P : Pipeline) (buf : GstBuffer) (w : World) :
  format_valid (dec w) ->
  exists evs,
    trace (snd (gst_dvdlpcmdec_chain_raw P buf w)) = trace w ++ evs /\
    converter_events evs.
Proof.
  intros Hv. apply format_valid_width in Hv.
  unfold converter_events, gst_dvdlpcmdec_chain_raw. run_monad.
  repeat case_split; rewrite <- ?app_assoc; cbn [app];
    try (eexists; split; [reflexivity|]; split; [reflexivity|];
         cbn; intuition discriminate).
  exfalso. repeat match goal with H : (_ =? _) = false |- _ => apply Z.eqb_neq in H end.
  intuition.
Qed.

Lemma converter_events_app (a b : list Event) :
  converter_events a -> converter_events b -> converter_events (a ++ b).
Proof.
  unfold converter_events. intros [Ha Ha'] [Hb Hb'].
  rewrite set_caps_calls_app, element_errors_app, Ha, Hb. split; [reflexivity|].
  rewrite in_app_iff. tauto.
Qed.

Lemma converter_events_nil : converter_events [].
Proof. split; [reflexivity|]. intros []. Qed.

Lemma chain_sub_events (P : Pipeline) (buf : GstBuffer) (off len ts : Z) (w : World) :
  format_valid (dec w) ->
  exists evs,
    trace (snd (chain_sub P buf off len ts w)) = trace w ++ evs /\
    converter_events evs.
Proof.
  intros Hv. unfold chain_sub, bind, lift.
  destruct (gst_buffer_create_sub buf (u32 off) (u32 len)) as [sub|].
  - now apply chain_raw_events.
  - exists []. cbn [snd]. rewrite app_nil_r. split; [reflexivity|apply converter_events_nil].
Qed.

Lemma forward_events (P : Pipeline) (buf : GstBuffer) (fa : Z) (w : World) :
  format_valid (dec w) ->
  exists evs,
    trace (snd (forward_sub_buffers P buf fa w)) = trace w ++ evs /\
    converter_events evs.
Proof.
  intros Hv. unfold forward_sub_buffers.
  destruct (fa >? 4); [|now apply chain_sub_events].
  cbv zeta. unfold bind.
  destruct (s32 (fa - 4) >? 0).
  - destruct (chain_sub_events P buf 5 (s32 (fa - 4)) GST_CLOCK_TIME_NONE w Hv)
      as (evs1 & Ht1 & Hc1).
    destruct (chain_sub_trace P buf 5 (s32 (fa - 4)) GST_CLOCK_TIME_NONE w)
      as (_ & _ & _ & _ & Hf1).
    destruct (chain_sub P buf 5 (s32 (fa - 4)) GST_CLOCK_TIME_NONE w)
      as [[r|] w1]; cbn [snd] in *.
    + destruct (negb (flow_is_ok r)).
      * exists evs1. cbn [ret snd]. auto.
      * pose proof (format_valid_same _ _ Hf1 Hv) as Hv1.
        match goal with
        | |- context [chain_sub P buf ?o ?l ?t w1] =>
            destruct (chain_sub_events P buf o l t w1 Hv1) as (evs2 & Ht2 & Hc2)
        end.
        exists (evs1 ++ evs2). rewrite Ht2, Ht1, app_assoc.
        split; [reflexivity|now apply converter_events_app].
    + exists evs1. auto.
  - cbn [ret flow_is_ok negb]. now apply chain_sub_events.
Qed.

(** One chunk. *)
Lemma chain_dvd_events (P : Pipeline) (buf : GstBuffer) (w : World) :
  format_valid (dec w) ->
  exists evs,
    trace (snd (gst_dvdlpcmdec_chain_dvd P buf w)) = trace w ++ evs /\
    format_valid (dec (snd (gst_dvdlpcmdec_chain_dvd P buf w))) /\
    Forall (fun c => src_template c = true) (set_caps_calls evs) /\
    ~ In STREAM_WRONG_TYPE (element_errors evs).
Proof.
  intros Hv.
  destruct (le_lt_dec 5 (length (buf_data buf))) as [Hlen|Hlen]; cycle 1.
  { rewrite chain_dvd_too_short by lia. exists []. cbn [snd].
    rewrite app_nil_r. repeat split; auto; try solve [constructor | intros []]. }
  destruct (buf_data buf) as [|d0 [|d1 [|d2 [|d3 [|d4 payload]]]]] eqn:E;
    cbn [length] in Hlen; try lia.
  set (hdr := header_of d2 d3 d4).
  assert (Hfmt : format_valid (dec (snd (gst_dvdlpcmdec_chain_dvd P buf w)))).
  { destruct (chain_dvd_trace P buf w d0 d1 d2 d3 d4 payload E) as (_ & _ & _ & _ & Hf).
    fold hdr in Hf. destruct (hdr =? header (dec w)).
    - exact (format_valid_same _ _ Hf Hv).
    - apply (format_valid_same (parse_header (dec w) hdr) _ Hf).
      right. apply parse_header_parsed. }
  rewrite (chain_dvd_header P buf w d0 d1 d2 d3 d4 payload E) in *. fold hdr in Hfmt |- *.
  destruct (negotiate_trace P hdr w) as (ok & Hok & Ht & _ & _ & Hf).
  assert (Hne : Forall (fun c => src_template c = true)
                  (set_caps_calls
                     (if hdr =? header (dec w) then []
                      else [EvSetCaps (src_caps_of (parse_header (dec w) hdr))])) /\
                element_errors
                  (if hdr =? header (dec w) then []
                   else [EvSetCaps (src_caps_of (parse_header (dec w) hdr))]) = []).
  { destruct (hdr =? header (dec w)); cbn; split; auto.
    constructor; [|constructor]. apply format_parsed_template, parse_header_parsed. }
  destruct Hne as (Hne1 & Hne2).
  assert (Hv0 : format_valid (dec (snd (negotiate_header P hdr w)))).
  { destruct (hdr =? header (dec w)).
    - exact (format_valid_same _ _ Hf Hv).
    - apply (format_valid_same (parse_header (dec w) hdr) _ Hf).
      right. apply parse_header_parsed. }
  unfold bind in *.
  destruct (negotiate_header P hdr w) as [o w0]. cbn [fst snd] in *. subst o.
  destruct ok; cbn [negb] in *.
  - destruct (forward_events P buf (first_access_of d0 d1) w0 Hv0)
      as (evs & Ht' & Hc & Herr).
    eexists. rewrite Ht', Ht, <- app_assoc. split; [reflexivity|].
    split; [exact Hfmt|].
    rewrite set_caps_calls_app, element_errors_app, Hc, Hne2, app_nil_r. cbn [app].
    split; assumption.
  - eexists. cbn [ret snd] in *. split; [exact Ht|].
    split; [exact Hfmt|]. rewrite Hne2. split; [exact Hne1|]. intros [].
Qed.

(** X21. A DVD stream, chunk after chunk and whatever the chunks and the
    pipeline hold, up to its end or to a crash: the format of the
    element stays either unset or one that parse_header produces (a rate
    of 48000 or 96000, 1 to 8 channels, a width of 16, 20 or 24 with the
    output width that goes with it), every caps proposed to the source
    pad lie within the source template, and "Invalid sample width
    configured" is never posted. *)
Theorem dvd_stream_invariant (P : Pipeline) (bufs : list GstBuffer) (w : World) :
  format_valid (dec w) ->
  let w' := snd (chain_dvd_all P bufs w) in
  format_valid (dec w') /\
  Forall (fun c => src_template c = true) (set_caps_calls (new_events w w')) /\
  ~ In STREAM_WRONG_TYPE (element_errors (new_events w w')).
Proof.
  intros Hv w'.
  assert (H : exists evs,
             trace w' = trace w ++ evs /\ format_valid (dec w') /\
             Forall (fun c => src_template c = true) (set_caps_calls evs) /\
             ~ In STREAM_WRONG_TYPE (element_errors evs)).
  { subst w'. revert w Hv. induction bufs as [|buf bufs IH]; intros w Hv.
    - exists []. cbn. rewrite app_nil_r. repeat split; auto.
    - cbn [chain_dvd_all]. unfold bind.
      destruct (chain_dvd_events P buf w Hv) as (evs1 & Ht1 & Hv1 & Hc1 & He1).
      destruct (gst_dvdlpcmdec_chain_dvd P buf w) as [[r|] w1]; cbn [snd] in *.
      + destruct (IH w1 Hv1) as (evs2 & Ht2 & Hv2 & Hc2 & He2).
        exists (evs1 ++ evs2). rewrite Ht2, Ht1, app_assoc.
        split; [reflexivity|]. split; [exact Hv2|].
        rewrite set_caps_calls_app, element_errors_app. split.
        * now apply Forall_app.
        * rewrite in_app_iff. tauto.
      + exists evs1. auto. }
  destruct H as (evs & Ht & Hv' & Hc & He).
  rewrite (new_events_app w w' evs Ht). auto.
Qed.

Lemma dvd_stream_invariant_witness :
  let w' := snd (chain_dvd_all accepting [chunk_fa7; chunk_fa4] fresh_world) in
  format_valid (dec w') /\
  set_caps_calls (new_events fresh_world w') = [mkCaps 48000 1 24 24].
Proof.
  split; [|reflexivity].
  refine (proj1 (dvd_stream_invariant accepting [chunk_fa7; chunk_fa4] fresh_world _)).
  left. reflexivity.
Defined.
